(** * WardenAPI client: request pipeline, retry policy and lookup facade

    A shallow embedding of [src/client.ts] (class [WardenAPI]) and of the
    error class of [src/types.ts].

    - JavaScript values are an inductive type [JSValue]; objects are
      association lists in the order of their own keys (array index keys
      in ascending order, then the other keys in insertion order).
    - Strings are byte strings (exact for ASCII text).
    - JavaScript numbers that the program computes with (header values read
      by [parseInt], delays, the retry budget) are integers or [NaN];
      fractional and infinite values are outside the model.
    - [async] methods run sequentially, so a method is a state transformer
      over a [World]: the client object [this], the number of [fetch] calls
      made so far and the chronological log of the effects ([fetch] calls
      and [delay] timers).  The network is an oracle [net] that answers the
      n-th [fetch] call.
    - [throw] / [try ... catch] are modelled by the [Completion] of a
      computation. *)

From Stdlib Require Import ZArith List String Ascii Bool Lia.
From Stdlib Require Import DecimalString.
Import ListNotations.

Open Scope string_scope.
Open Scope Z_scope.

Set Warnings "-register-all".

(* ===================================================================== *)
(** ** JavaScript values *)
(* ===================================================================== *)

Module JS.

(** A JavaScript number: an integer or NaN. *)
Inductive number : Type :=
| NaN
| Int (z : Z).

Inductive JSValue : Type :=
| JUndefined
| JNull
| JBool (b : bool)
| JNum (n : number)
| JStr (s : string)
| JArr (items : list JSValue)
| JObj (props : list (string * JSValue)).

(** [a * b] on numbers. *)
Definition mul (a b : number) : number :=
  match a, b with
  | Int x, Int y => Int (x * y)
  | _, _ => NaN
  end.

(** ToBoolean. *)
Definition truthy (v : JSValue) : bool :=
  match v with
  | JUndefined | JNull => false
  | JBool b => b
  | JNum NaN => false
  | JNum (Int z) => negb (z =? 0)
  | JStr s => negb (s =? "")%string
  | JArr _ | JObj _ => true
  end.

(** [a || b] on values. *)
Definition or_val (a b : JSValue) : JSValue :=
  if truthy a then a else b.

(** A string as a header lookup returns it: [null] is [None]. *)
Definition truthy_str (o : option string) : bool :=
  match o with
  | Some s => negb (s =? "")%string
  | None => false
  end.

(** [o || d] where [o] is a string or null/undefined and [d] a string. *)
Definition or_str (o : option string) (d : string) : string :=
  match o with
  | Some s => if (s =? "")%string then d else s
  | None => d
  end.

(** [o || d] where [o] is a number or undefined and [d] a nonzero integer. *)
Definition or_num (o : option number) (d : Z) : Z :=
  match o with
  | Some (Int z) => if z =? 0 then d else z
  | Some NaN | None => d
  end.

(** Decimal rendering of an integer, as in a template literal. *)
Definition string_of_Z (z : Z) : string :=
  NilZero.string_of_int (Z.to_int z).

Definition string_of_number (n : number) : string :=
  match n with
  | NaN => "NaN"
  | Int z => string_of_Z z
  end.

Fixpoint join (sep : string) (l : list string) : string :=
  match l with
  | [] => ""
  | [s] => s
  | s :: rest => s ++ sep ++ join sep rest
  end.

(** *** parseInt *)

Definition isWhiteSpace (c : ascii) : bool :=
  let n := Z.of_nat (nat_of_ascii c) in
  ((9 <=? n) && (n <=? 13)) || (n =? 32) || (n =? 160).

Fixpoint skipWhiteSpace (s : string) : string :=
  match s with
  | String c rest => if isWhiteSpace c then skipWhiteSpace rest else s
  | EmptyString => s
  end.

Definition digitValue (c : ascii) : option Z :=
  let n := Z.of_nat (nat_of_ascii c) in
  if (48 <=? n) && (n <=? 57) then Some (n - 48)
  else if (97 <=? n) && (n <=? 122) then Some (n - 87)
  else if (65 <=? n) && (n <=? 90) then Some (n - 55)
  else None.

(** The digits of [s] in radix [radix], up to the first character that is
    not one; [acc] is [None] until a digit has been read. *)
Fixpoint readDigits (radix : Z) (s : string) (acc : option Z) : option Z :=
  match s with
  | EmptyString => acc
  | String c rest =>
      match digitValue c with
      | Some d =>
          if d <? radix
          then readDigits radix rest
                 (Some (match acc with Some a => a * radix + d | None => d end))
          else acc
      | None => acc
      end
  end.

(** [parseInt(s)] with no radix argument: leading white space, an optional
    sign, an optional [0x] / [0X] prefix that selects radix 16, then the
    longest run of digits; NaN when there is none. *)
Definition parseInt (s : string) : number :=
  let s1 := skipWhiteSpace s in
  let '(sign, s2) :=
    match s1 with
    | String "-"%char rest => (-1, rest)
    | String "+"%char rest => (1, rest)
    | _ => (1, s1)
    end in
  let '(radix, s3) :=
    match s2 with
    | String "0"%char (String "x"%char rest) => (16, rest)
    | String "0"%char (String "X"%char rest) => (16, rest)
    | _ => (10, s2)
    end in
  match readDigits radix s3 None with
  | Some n => Int (sign * n)
  | None => NaN
  end.

(** *** Objects as association lists, in the order of their own keys *)

Fixpoint lookup (k : string) (props : list (string * JSValue)) : JSValue :=
  match props with
  | [] => JUndefined
  | (k', v) :: rest => if (k =? k')%string then v else lookup k rest
  end.

(** Whether [k] is an own key. *)
Fixpoint hasOwn {V : Type} (k : string) (props : list (string * V)) : bool :=
  match props with
  | [] => false
  | (k', _) :: rest => (k =? k')%string || hasOwn k rest
  end.

(** The number of an array index key: a canonical decimal numeral of at
    most 2^32 - 2. *)
Definition arrayIndex (k : string) : option Z :=
  match readDigits 10 k None with
  | Some n =>
      if (string_of_Z n =? k)%string && (n <=? 4294967294) then Some n else None
  | None => None
  end.

Fixpoint replace {V : Type} (k : string) (v : V) (props : list (string * V))
  : list (string * V) :=
  match props with
  | [] => []
  | (k', v') :: rest =>
      if (k =? k')%string then (k, v) :: rest else (k', v') :: replace k v rest
  end.

(** A new array index key goes among the array index keys, in ascending
    order; they come before every other key. *)
Fixpoint insertIndex {V : Type} (i : Z) (k : string) (v : V)
    (props : list (string * V)) : list (string * V) :=
  match props with
  | [] => [(k, v)]
  | (k', v') :: rest =>
      match arrayIndex k' with
      | Some j => if j <? i then (k', v') :: insertIndex i k v rest
                  else (k, v) :: props
      | None => (k, v) :: props
      end
  end.

(** [obj[k] = v]: an existing key keeps its position; a new key is added
    last, unless it is an array index. *)
Definition assign {V : Type} (k : string) (v : V) (props : list (string * V))
  : list (string * V) :=
  if hasOwn k props then replace k v props
  else match arrayIndex k with
       | Some i => insertIndex i k v props
       | None => props ++ [(k, v)]
       end.

Fixpoint indexed (i : Z) (items : list JSValue) : list (string * JSValue) :=
  match items with
  | [] => []
  | x :: rest => (string_of_Z i, x) :: indexed (i + 1) rest
  end.

Fixpoint chars (s : string) : list JSValue :=
  match s with
  | EmptyString => []
  | String c rest => JStr (String c EmptyString) :: chars rest
  end.

(** The own enumerable properties of a value, which is what the spread
    [{ ...v }] copies: the properties of an object, the elements of an array
    and the characters of a string under their indices, nothing for the
    other primitives, [null] and [undefined]. *)
Definition ownProps (v : JSValue) : list (string * JSValue) :=
  match v with
  | JObj props => props
  | JArr items => indexed 0 items
  | JStr s => indexed 0 (chars s)
  | _ => []
  end.

(** [v.k] for a key that is neither [length] nor a member of a built-in
    prototype (the program reads [error] and [id] only). *)
Definition get (v : JSValue) (k : string) : JSValue :=
  lookup k (ownProps v).

(** [v?.k], same keys. *)
Definition optGet (v : JSValue) (k : string) : JSValue :=
  match v with
  | JUndefined | JNull => JUndefined
  | _ => get v k
  end.

(** *** ToString *)

(** ToString of a decoded JSON value (or [undefined]), as the [Error]
    constructor applies it to its message; [None] when it throws a
    TypeError.  No value of a decoded body is callable, so an object with an
    own [toString] property has no usable [toString], and its [valueOf]
    (its own or the inherited one) gives no primitive either: the conversion
    throws.  Any other object is rendered by [Object.prototype.toString].
    An array is rendered by [join]: its elements converted in turn, [null]
    and [undefined] as the empty string, so it throws when an element does.
    A number is printed in decimal, which is what JavaScript prints for the
    integers of the model ([safe]). *)
Fixpoint toString (v : JSValue) : option string :=
  match v with
  | JUndefined => Some "undefined"
  | JNull => Some "null"
  | JBool true => Some "true"
  | JBool false => Some "false"
  | JNum n => Some (string_of_number n)
  | JStr s => Some s
  | JArr items =>
      option_map (join ",")
        ((fix each (l : list JSValue) : option (list string) :=
            match l with
            | [] => Some []
            | x :: rest =>
                match match x with
                      | JUndefined | JNull => Some ""
                      | _ => toString x
                      end
                with
                | Some s => option_map (cons s) (each rest)
                | None => None
                end
            end) items)
  | JObj props =>
      if hasOwn "toString" props then None else Some "[object Object]"
  end.

(** The numbers of the model: NaN and the integers that a JavaScript number
    holds exactly and prints in full, those of at most 2^53 in absolute
    value. *)
Definition safeNumber (n : number) : bool :=
  match n with
  | NaN => true
  | Int z => (- 2 ^ 53 <=? z) && (z <=? 2 ^ 53)
  end.

(** Every number in the value is one of the model. *)
Fixpoint safe (v : JSValue) : bool :=
  match v with
  | JNum n => safeNumber n
  | JArr items => forallb safe items
  | JObj props => forallb (fun kv => safe (snd kv)) props
  | _ => true
  end.

End JS.

Import JS.

(** *** JSON.stringify *)

Module JSON.

Definition dquote : string := String (ascii_of_nat 34) EmptyString.

Definition hexDigit (n : nat) : ascii :=
  if Nat.ltb n 10 then ascii_of_nat (48 + n) else ascii_of_nat (87 + n).

Definition escapeChar (c : ascii) : string :=
  let n := nat_of_ascii c in
  if Nat.eqb n 34 then String "\"%char dquote
  else if Nat.eqb n 92 then "\\"
  else if Nat.eqb n 8 then "\b"
  else if Nat.eqb n 9 then "\t"
  else if Nat.eqb n 10 then "\n"
  else if Nat.eqb n 12 then "\f"
  else if Nat.eqb n 13 then "\r"
  else if Nat.ltb n 32
       then "\u00" ++ String (hexDigit (Nat.div n 16))
                        (String (hexDigit (Nat.modulo n 16)) EmptyString)
  else String c EmptyString.

Fixpoint escape (s : string) : string :=
  match s with
  | EmptyString => ""
  | String c rest => escapeChar c ++ escape rest
  end.

Definition quote (s : string) : string := dquote ++ escape s ++ dquote.

(** [JSON.stringify(v)] for a value that is not [undefined] itself: a
    property whose value is [undefined] is left out, an [undefined] array
    element and NaN are written [null]. *)
Fixpoint stringify (v : JSValue) : string :=
  match v with
  | JUndefined | JNull | JNum NaN => "null"
  | JBool true => "true"
  | JBool false => "false"
  | JNum (Int z) => string_of_Z z
  | JStr s => quote s
  | JArr items => "[" ++ join "," (map stringify items) ++ "]"
  | JObj props =>
      "{" ++ join ","
               ((fix members (ps : list (string * JSValue)) : list string :=
                   match ps with
                   | [] => []
                   | (_, JUndefined) :: rest => members rest
                   | (k, x) :: rest =>
                       (quote k ++ ":" ++ stringify x) :: members rest
                   end) props)
          ++ "}"
  end.

End JSON.

(* ===================================================================== *)
(** ** The types of [types.ts] *)
(* ===================================================================== *)

(** [WardenConfig], as a caller passes it: a field left out is [None]. *)
Module WardenConfig.
Record t : Type := make {
  apiKey : option string;
  baseUrl : option string;
  timeout : option number;
  retries : option number
}.
End WardenConfig.

(** [Required<WardenConfig>], the type of [this.config].  The constructor is
    the only writer of the field and stores integers there (see
    [constructor]), so the two numbers are in [Z]. *)
Module Config.
Record t : Type := make {
  apiKey : string;
  baseUrl : string;
  timeout : Z;
  retries : Z
}.
End Config.

Module RequestOptions.
Record t : Type := make {
  method : option string;
  headers : option (list (string * string));
  body : option string;
  timeout : option number
}.
(** The default argument [options = {}]. *)
Definition empty : t := make None None None None.
End RequestOptions.

Module RateLimitInfo.
Record t : Type := make {
  limit : number;
  remaining : number;
  reset : number;
  retryAfter : option number
}.

(** The object as a JavaScript value. *)
Definition value (r : t) : JSValue :=
  JObj [("limit", JNum (limit r));
        ("remaining", JNum (remaining r));
        ("reset", JNum (reset r));
        ("retryAfter",
          match retryAfter r with Some n => JNum n | None => JUndefined end)].

(** A [RateLimitInfo | undefined] as a JavaScript value. *)
Definition optValue (o : option t) : JSValue :=
  match o with
  | Some r => value r
  | None => JUndefined
  end.
End RateLimitInfo.

(** [class WardenAPIError extends Error]; [name] is the constant
    ['WardenAPIError']. *)
Module WardenAPIError.
Record t : Type := make {
  message : string;
  statusCode : option Z;
  responseData : JSValue;
  rateLimit : option RateLimitInfo.t
}.

(** [new WardenAPIError(message, statusCode, responseData, rateLimit)]:
    [super(message)] stores the string conversion of its argument; [None]
    when that conversion throws its TypeError, which then is what the [new]
    expression throws. *)
Definition new (message : JSValue) (statusCode : Z) (responseData : JSValue)
    (rateLimit : option RateLimitInfo.t) : option t :=
  match toString message with
  | Some text => Some (make text (Some statusCode) responseData rateLimit)
  | None => None
  end.
End WardenAPIError.

(** Any other [Error] instance: the [Error] of the constructor, the
    [TypeError] or [TimeoutError] of a failed [fetch], the [SyntaxError] of
    [response.json()]. *)
Module JSError.
Record t : Type := make {
  name : string;
  message : string
}.
(** [new Error(message)]. *)
Definition Error (message : string) : t := make "Error" message.
End JSError.

(** What a [throw] can carry in this program.  The two errors that the
    platform raises inside the client are named by their cause; both are
    [Error] instances and neither is a [WardenAPIError]. *)
Inductive Exception : Type :=
| WardenErr (e : WardenAPIError.t)
| OtherErr (e : JSError.t)
| ConversionErr            (* the TypeError of ToString on the message *)
| SignalRangeErr (ms : Z)  (* the RangeError of [AbortSignal.timeout(ms)] *)
| ThrownUndefined.

(** [error instanceof WardenAPIError]. *)
Definition instanceofWardenAPIError (error : Exception) : bool :=
  match error with
  | WardenErr _ => true
  | _ => false
  end.

(** [error instanceof Error ? error : new Error(String(error))]. *)
Definition asError (error : Exception) : Exception :=
  match error with
  | ThrownUndefined => OtherErr (JSError.Error "undefined")
  | _ => error
  end.

(* ===================================================================== *)
(** ** The transport: [fetch], [Response], [Headers] *)
(* ===================================================================== *)

Module Headers.
Definition t : Type := list (string * string).

Definition lowerChar (c : ascii) : ascii :=
  let n := nat_of_ascii c in
  if Nat.leb 65 n && Nat.leb n 90 then ascii_of_nat (n + 32) else c.

Fixpoint lower (s : string) : string :=
  match s with
  | EmptyString => EmptyString
  | String c rest => String (lowerChar c) (lower rest)
  end.

(** [headers.get(name)]: names compare without case; the values of a
    repeated header are joined with a comma and a space; [null] when the
    header is absent. *)
Definition get (name : string) (h : t) : option string :=
  match filter (fun kv => (lower (fst kv) =? lower name)%string) h with
  | [] => None
  | found => Some (join ", " (map snd found))
  end.
End Headers.

Module Response.
Record t : Type := make {
  status : Z;
  statusText : string;
  headers : Headers.t;
  (** what [response.json()] settles to: the decoded body, or the error it
      rejects with *)
  json : JSError.t + JSValue
}.

(** [response.ok]: the status is in the range 200-299. *)
Definition ok (r : t) : bool := (200 <=? status r) && (status r <=? 299).
End Response.

(** The [RequestInit] handed to [fetch], together with the URL. *)
Module Request.
Record t : Type := make {
  url : string;
  method : string;
  headers : list (string * string);
  body : option string;
  (** the delay of [AbortSignal.timeout] *)
  signal : Z
}.
End Request.

(** How a [fetch] promise settles. *)
Inductive FetchResult : Type :=
| Rejected (e : JSError.t)
| Resolved (r : Response.t).

(** The network: the outcome of the n-th [fetch] call (counted from 0 over
    the life of the world) for the request it is given. *)
Definition Network : Type := Request.t -> nat -> FetchResult.

(* ===================================================================== *)
(** ** Effects *)
(* ===================================================================== *)

Inductive Event : Type :=
| Fetch (req : Request.t)
| Delay (ms : number).

Record World : Type := mkWorld {
  this_config : Config.t;   (* the field [config] of the client object *)
  fetches : nat;            (* [fetch] calls made so far *)
  log : list Event          (* effects, oldest first *)
}.

Inductive Completion (A : Type) : Type :=
| Normal (a : A)
| Throw (e : Exception).
Arguments Normal {A} a.
Arguments Throw {A} e.

Definition M (A : Type) : Type := World -> Completion A * World.

Definition ret {A} (a : A) : M A := fun w => (Normal a, w).

Definition throw {A} (e : Exception) : M A := fun w => (Throw e, w).

Definition bind {A B} (m : M A) (k : A -> M B) : M B :=
  fun w =>
    match m w with
    | (Normal a, w') => k a w'
    | (Throw e, w') => (Throw e, w')
    end.

(** [try { m } catch (error) { handler }]. *)
Definition tryCatch {A} (m : M A) (handler : Exception -> M A) : M A :=
  fun w =>
    match m w with
    | (Normal a, w') => (Normal a, w')
    | (Throw e, w') => handler e w'
    end.

Declare Scope js_scope.
Delimit Scope js_scope with js.
Notation "x <- m ;; k" := (bind m (fun x => k))
  (at level 61, m at next level, right associativity) : js_scope.
Notation "m ;;; k" := (bind m (fun _ => k))
  (at level 61, right associativity) : js_scope.
Open Scope js_scope.

(** [this.config]. *)
Definition getConfig : M Config.t := fun w => (Normal (this_config w), w).

Definition record (ev : Event) (w : World) : World :=
  mkWorld (this_config w) (fetches w) (log w ++ [ev]).

(** The world after one more [fetch] call. *)
Definition fetched (req : Request.t) (w : World) : World :=
  mkWorld (this_config w) (S (fetches w)) (log w ++ [Fetch req]).

Section Client.

Variable net : Network.

(** [await fetch(url, requestOptions)]. *)
Definition fetch (req : Request.t) : M Response.t :=
  fun w =>
    match net req (fetches w) with
    | Rejected e => (Throw (OtherErr e), fetched req w)
    | Resolved r => (Normal r, fetched req w)
    end.

(** [await response.json()]. *)
Definition json (response : Response.t) : M JSValue :=
  match Response.json response with
  | inl e => throw (OtherErr e)
  | inr v => ret v
  end.

(** [await this.delay(ms)]. *)
Definition delay (ms : number) : M unit :=
  fun w => (Normal tt, record (Delay ms) w).

(** [AbortSignal.timeout(ms)], as Node.js has it: a RangeError unless
    [0 <= ms <= 4294967295].  The signal is represented by its delay. *)
Definition abortSignalTimeout (ms : Z) : M Z :=
  if (0 <=? ms) && (ms <=? 4294967295) then ret ms else throw (SignalRangeErr ms).

(** [throw new WardenAPIError(...)]. *)
Definition throwWardenAPIError {A} (message : JSValue) (statusCode : Z)
    (responseData : JSValue) (rateLimit : option RateLimitInfo.t) : M A :=
  match WardenAPIError.new message statusCode responseData rateLimit with
  | Some error => throw (WardenErr error)
  | None => throw ConversionErr
  end.

(* ===================================================================== *)
(** ** [class WardenAPI] *)
(* ===================================================================== *)

(** [constructor(config)]; the result is the value stored in
    [this.config]. *)
Definition constructor (config : WardenConfig.t) : Completion Config.t :=
  match WardenConfig.apiKey config with
  | None => Throw (OtherErr (JSError.Error "API key is required"))
  | Some apiKey =>
      if negb (truthy (JStr apiKey))
      then Throw (OtherErr (JSError.Error "API key is required"))
      else if negb (String.prefix "wd_" apiKey)
      then Throw (OtherErr (JSError.Error
             ("API key must start with " ++ JSON.dquote ++ "wd_" ++ JSON.dquote)))
      else Normal
        {| Config.apiKey := apiKey;
           Config.baseUrl :=
             or_str (WardenConfig.baseUrl config) "https://api.iitranq.co.uk/api/v1";
           Config.timeout := or_num (WardenConfig.timeout config) 10000;
           Config.retries := or_num (WardenConfig.retries config) 3 |}
  end.

Definition extractRateLimit (response : Response.t) : option RateLimitInfo.t :=
  let limit := Headers.get "X-RateLimit-Limit" (Response.headers response) in
  let remaining := Headers.get "X-RateLimit-Remaining" (Response.headers response) in
  let reset := Headers.get "X-RateLimit-Reset" (Response.headers response) in
  let retryAfter := Headers.get "Retry-After" (Response.headers response) in
  match limit, remaining, reset with
  | Some limit, Some remaining, Some reset =>
      if truthy (JStr limit) && truthy (JStr remaining) && truthy (JStr reset)
      then Some {| RateLimitInfo.limit := parseInt limit;
                   RateLimitInfo.remaining := parseInt remaining;
                   RateLimitInfo.reset := parseInt reset;
                   RateLimitInfo.retryAfter :=
                     match retryAfter with
                     | Some r => if truthy (JStr r) then Some (parseInt r) else None
                     | None => None
                     end |}
      else None
  | _, _, _ => None
  end.

Definition safeJsonParse (response : Response.t) : M JSValue :=
  tryCatch (json response) (fun _ => ret JNull).

(** What one turn of the attempt loop hands to the loop: [continue] (or the
    end of the [catch] block) with the current [lastError], or the value of
    [return]. *)
Inductive Step : Type :=
| Continue (lastError : option Exception)
| Return (v : JSValue).

(** The body of the [for] loop of [makeRequest], at index [attempt]. *)
Definition attemptBody (req : Request.t) (attempt : Z)
    (lastError : option Exception) : M Step :=
  tryCatch
    (response <- fetch req ;;
     let rateLimit := extractRateLimit response in
     if negb (Response.ok response) then
       errorData <- safeJsonParse response ;;
       let errorMessage :=
         or_val (optGet errorData "error")
            (JStr ("HTTP " ++ string_of_Z (Response.status response) ++ ": "
                          ++ Response.statusText response)) in
       config <- getConfig ;;
       if (Response.status response =? 429) && (attempt <? Config.retries config)
       then
         let retryAfter :=
           mul (parseInt (or_str (Headers.get "Retry-After"
                                    (Response.headers response)) "1"))
               (Int 1000) in
         delay retryAfter ;;;
         ret (Continue lastError)
       else
         throwWardenAPIError errorMessage (Response.status response)
           errorData rateLimit
     else
       data <- json response ;;
       ret (Return (JObj (assign "rateLimit" (RateLimitInfo.optValue rateLimit)
                            (ownProps data)))))
    (fun error =>
       let lastError := Some (asError error) in
       config <- getConfig ;;
       if instanceofWardenAPIError error || (attempt =? Config.retries config)
       then throw error
       else
         delay (Int (2 ^ attempt * 1000)) ;;;
         ret (Continue lastError)).

(** The values that [attempt] takes in
    [for (let attempt = 0; attempt <= retries; attempt++)];
    neither variable is assigned in the body. *)
Definition attemptIndices (retries : Z) : list Z :=
  map Z.of_nat (seq 0 (Z.to_nat (retries + 1))).

(** The [for] loop over the remaining indices, and [throw lastError!] after
    it. *)
Fixpoint attempts (req : Request.t) (indices : list Z)
    (lastError : option Exception) : M JSValue :=
  match indices with
  | [] =>
      match lastError with
      | Some e => throw e
      | None => throw ThrownUndefined
      end
  | attempt :: rest =>
      step <- attemptBody req attempt lastError ;;
      match step with
      | Continue lastError' => attempts req rest lastError'
      | Return v => ret v
      end
  end.

(** The [requestOptions] that [makeRequest] builds, once
    [AbortSignal.timeout(timeout)] has given the signal (see
    [makeRequest]). *)
Definition requestOptions (config : Config.t) (endpoint : string)
    (options : RequestOptions.t) : Request.t :=
  let url := Config.baseUrl config ++ endpoint in
  let timeout := or_num (RequestOptions.timeout options) (Config.timeout config) in
  {| Request.url := url;
     Request.method := or_str (RequestOptions.method options) "GET";
     Request.headers :=
       fold_left (fun acc kv => assign (fst kv) (snd kv) acc)
         (match RequestOptions.headers options with Some h => h | None => [] end)
         [("x-api-key", Config.apiKey config);
          ("Content-Type", "application/json");
          ("User-Agent", "WardenAPI-JS/1.0.0")];
     Request.body := RequestOptions.body options;
     Request.signal := timeout |}.

Definition makeRequest (endpoint : string) (options : RequestOptions.t)
  : M JSValue :=
  config <- getConfig ;;
  let timeout := or_num (RequestOptions.timeout options) (Config.timeout config) in
  abortSignalTimeout timeout ;;;
  attempts (requestOptions config endpoint options)
    (attemptIndices (Config.retries config)) None.

(** [error instanceof WardenAPIError && error.statusCode === 404]. *)
Definition isNotFound (error : Exception) : bool :=
  match error with
  | WardenErr e =>
      match WardenAPIError.statusCode e with
      | Some code => code =? 404
      | None => false
      end
  | _ => false
  end.

Definition POST (body : string) : RequestOptions.t :=
  {| RequestOptions.method := Some "POST";
     RequestOptions.headers := None;
     RequestOptions.body := Some body;
     RequestOptions.timeout := None |}.

Definition checkServerById (serverId : string) : M JSValue :=
  let request :=
    JObj [("data", JObj [("type", JStr "id"); ("id", JStr serverId)])] in
  tryCatch
    (makeRequest "/server" (POST (JSON.stringify request)))
    (fun error =>
       if isNotFound error
       then ret (JObj [("error", JStr "Server not found"); ("data", JUndefined)])
       else throw error).

Definition checkServerByName (serverName : string) : M JSValue :=
  let request :=
    JObj [("data", JObj [("type", JStr "name"); ("name", JStr serverName)])] in
  tryCatch
    (makeRequest "/server" (POST (JSON.stringify request)))
    (fun error =>
       if isNotFound error
       then ret (JObj [("error", JStr "Server not found")])
       else throw error).

(** [servers] is the caller's array of [{ id?, name? }] objects. *)
Definition checkServers (servers : list JSValue) : M JSValue :=
  let request := JObj [("data", JObj [("servers", JArr servers)])] in
  makeRequest "/servers" (POST (JSON.stringify request)).

Definition checkUserById (userId : string) : M JSValue :=
  let request :=
    JObj [("data", JObj [("type", JStr "id"); ("id", JStr userId)])] in
  tryCatch
    (makeRequest "/user" (POST (JSON.stringify request)))
    (fun error =>
       if isNotFound error
       then ret (JObj [("error", JStr "User not found")])
       else throw error).

Definition getServerInfo (serverId : string) : M JSValue :=
  tryCatch
    (makeRequest ("/server/" ++ serverId) RequestOptions.empty)
    (fun error =>
       if isNotFound error
       then ret (JObj [("error", JStr "Server not found")])
       else throw error).

Definition isServerFlagged (serverId : string) : M bool :=
  response <- getServerInfo serverId ;;
  ret (negb (truthy (get response "error")) && truthy (optGet response "id")).

Definition isUserFlagged (userId : string) : M bool :=
  response <- checkUserById userId ;;
  ret (negb (truthy (get response "error")) && truthy (optGet response "id")).

End Client.

(** A call of a public method of the client. *)
Inductive Call : Type :=
| CheckServerById (serverId : string)
| CheckServerByName (serverName : string)
| CheckServers (servers : list JSValue)
| CheckUserById (userId : string)
| GetServerInfo (serverId : string)
| IsServerFlagged (serverId : string)
| IsUserFlagged (userId : string).

Definition invoke (net : Network) (c : Call) : M JSValue :=
  match c with
  | CheckServerById serverId => checkServerById net serverId
  | CheckServerByName serverName => checkServerByName net serverName
  | CheckServers servers => checkServers net servers
  | CheckUserById userId => checkUserById net userId
  | GetServerInfo serverId => getServerInfo net serverId
  | IsServerFlagged serverId => b <- isServerFlagged net serverId ;; ret (JBool b)
  | IsUserFlagged userId => b <- isUserFlagged net userId ;; ret (JBool b)
  end.

(** The world of a client that was just constructed. *)
Definition newWorld (config : Config.t) : World := mkWorld config 0 [].

(* ===================================================================== *)
(** ** Vocabulary of the statements *)
(* ===================================================================== *)

(** The attempt loop run over [indices] for as long as every turn ends in
    [continue] (a retried turn): the [lastError] and the world at the head of
    the next turn, or [None] when some turn returned or threw. *)
Fixpoint retryAll (net : Network) (req : Request.t) (indices : list Z)
    (lastError : option Exception) (w : World)
  : option (option Exception * World) :=
  match indices with
  | [] => Some (lastError, w)
  | attempt :: rest =>
      match attemptBody net req attempt lastError w with
      | (Normal (Continue lastError'), w') => retryAll net req rest lastError' w'
      | _ => None
      end
  end.

(** [reaches net req attempt w]: started in [w], the loop of [makeRequest]
    retries the attempts [0 .. attempt - 1] and so arrives at the head of
    the turn [attempt]. *)
Definition reaches (net : Network) (req : Request.t) (attempt : Z) (w : World)
  : option (option Exception * World) :=
  retryAll net req (attemptIndices (attempt - 1)) None w.

(** The indices that follow [attempt] in the loop. *)
Definition indicesAfter (attempt retries : Z) : list Z :=
  map Z.of_nat (seq (S (Z.to_nat attempt)) (Z.to_nat (retries - attempt))).

(** The effects of [n] attempts that each failed and were retried after the
    exponential backoff, followed by one more attempt. *)
Definition backoffLog (req : Request.t) (n : nat) : list Event :=
  flat_map (fun i => [Fetch req; Delay (Int (2 ^ Z.of_nat i * 1000))]) (seq 0 n)
  ++ [Fetch req].

(** The delay that [makeRequest] gives to [AbortSignal.timeout]. *)
Definition signalDelay (config : Config.t) (options : RequestOptions.t) : Z :=
  or_num (RequestOptions.timeout options) (Config.timeout config).

(** The delays that [AbortSignal.timeout] accepts. *)
Definition signalRange (ms : Z) : Prop := 0 <= ms <= 4294967295.

(** The generic message of a [WardenAPIError]. *)
Definition httpMessage (r : Response.t) : string :=
  "HTTP " ++ string_of_Z (Response.status r) ++ ": " ++ Response.statusText r.

(** The body that [safeJsonParse] hands back. *)
Definition safeBody (r : Response.t) : JSValue :=
  match Response.json r with
  | inr v => v
  | inl _ => JNull
  end.

(** The [errorMessage] of [makeRequest] for a response that is not ok,
    before its conversion to a string. *)
Definition errorMessage (r : Response.t) : JSValue :=
  or_val (optGet (safeBody r) "error") (JStr (httpMessage r)).

(** *** Reference reading of one attempt

    The three definitions below restate, as functions of the answer of the
    network alone, what [attemptBody] does with it; [attemptBody_reading]
    proves that they agree with it. *)

(** Whether the attempt of index [attempt] that got [answer] is retried. *)
Definition retried (retries attempt : Z) (answer : FetchResult) : bool :=
  match answer with
  | Rejected _ => negb (attempt =? retries)
  | Resolved r =>
      if Response.ok r
      then match Response.json r with
           | inl _ => negb (attempt =? retries)
           | inr _ => false
           end
      else if (Response.status r =? 429) && (attempt <? retries) then true
      else match toString (errorMessage r) with
           | Some _ => false
           | None => negb (attempt =? retries)
           end
  end.

(** The sleep before the next attempt when the attempt is retried. *)
Definition retryDelay (retries attempt : Z) (answer : FetchResult) : number :=
  match answer with
  | Rejected _ => Int (2 ^ attempt * 1000)
  | Resolved r =>
      if Response.ok r
      then Int (2 ^ attempt * 1000)
      else if (Response.status r =? 429) && (attempt <? retries)
      then mul (parseInt (or_str (Headers.get "Retry-After"
                                    (Response.headers r)) "1"))
               (Int 1000)
      else Int (2 ^ attempt * 1000)
  end.

(** How [makeRequest] completes on an attempt that is not retried. *)
Definition settle (answer : FetchResult) : Completion JSValue :=
  match answer with
  | Rejected e => Throw (OtherErr e)
  | Resolved r =>
      if Response.ok r
      then match Response.json r with
           | inl e => Throw (OtherErr e)
           | inr data =>
               Normal (JObj (assign "rateLimit"
                               (RateLimitInfo.optValue (extractRateLimit r))
                               (ownProps data)))
           end
      else match WardenAPIError.new (errorMessage r) (Response.status r)
                   (safeBody r) (extractRateLimit r) with
           | Some e => Throw (WardenErr e)
           | None => Throw ConversionErr
           end
  end.

(** The effects of [makeRequest] when the attempts [first .. first + k - 1]
    were retried and the attempt [first + k] settled it; [answer j] is the
    answer to the [j]-th of these fetches. *)
Definition traceOf (req : Request.t) (retries : Z) (first : nat)
    (answer : nat -> FetchResult) (k : nat) : list Event :=
  flat_map (fun j => [Fetch req;
                      Delay (retryDelay retries (Z.of_nat (first + j)) (answer j))])
           (seq 0 k)
  ++ [Fetch req].

(** The milliseconds of the timers in a log; a timer started with NaN fires
    without waiting and counts 0. *)
Fixpoint sleepMs (events : list Event) : Z :=
  match events with
  | [] => 0
  | Delay (Int ms) :: rest => ms + sleepMs rest
  | _ :: rest => sleepMs rest
  end.


(** Checks that a concrete timeout is one that [AbortSignal.timeout]
    accepts. *)
Ltac in_range := unfold signalRange, signalDelay; cbn; lia.

(** Unfolds one turn of the loop down to the answer of the network. *)
Ltac run :=
  unfold attemptBody, throwWardenAPIError, tryCatch, bind, fetch,
    safeJsonParse, json, getConfig, delay, throw, ret;
  cbn [this_config fetched].

(* ===================================================================== *)
(** ** Sample inputs *)
(* ===================================================================== *)

Module Sample.

(** [new WardenAPI({ apiKey: 'wd_test' })]. *)
Definition config : Config.t :=
  Config.make "wd_test" "https://api.iitranq.co.uk/api/v1" 10000 3.

(** The request of [makeRequest('/server/1')] for that client. *)
Definition req : Request.t := requestOptions config "/server/1" RequestOptions.empty.

Definition fetchFailed : JSError.t := JSError.make "TypeError" "fetch failed".

Definition syntaxError : JSError.t :=
  JSError.make "SyntaxError" "Unexpected token < in JSON at position 0".

(** A network that is down. *)
Definition down : Network := fun _ _ => Rejected fetchFailed.

(** A network that gives the same response to every request. *)
Definition always (r : Response.t) : Network := fun _ _ => Resolved r.

(** A network that gives [first] to the first [fetch] call and [r] to the
    later ones. *)
Definition firstThen (first r : Response.t) : Network :=
  fun _ n => match n with O => Resolved first | _ => Resolved r end.

Definition rateLimitHeaders : Headers.t :=
  [("x-ratelimit-limit", "100");
   ("x-ratelimit-remaining", "99");
   ("x-ratelimit-reset", "1640995200")].

Definition found : Response.t :=
  Response.make 200 "OK" rateLimitHeaders
    (inr (JObj [("id", JStr "1"); ("name", JStr "X"); ("type", JStr "CHEATING")])).

Definition notFound : Response.t :=
  Response.make 404 "Not Found" []
    (inr (JObj [("error", JStr "No such server")])).


Definition htmlPage : Response.t :=
  Response.make 200 "OK" [] (inl syntaxError).

(** A 429 whose [Retry-After] is a number of seconds. *)
Definition tooMany : Response.t :=
  Response.make 429 "Too Many Requests"
    (("retry-after", "7") :: rateLimitHeaders)
    (inr (JObj [("error", JStr "Rate limit exceeded")])).

(** A 429 whose [Retry-After] is an HTTP date, not a number of seconds. *)
Definition tooManyUntil : Response.t :=
  Response.make 429 "Too Many Requests"
    [("retry-after", "Wed, 21 Oct 2015 07:28:00 GMT")] (inr JNull).

(** A response whose limit header is not a number. *)
(** A 429 that asks for one second. *)
Definition tooManyBriefly : Response.t :=
  Response.make 429 "Too Many Requests" [("retry-after", "1")]
    (inr (JObj [("error", JStr "Rate limit exceeded")])).

(** A 500 whose [error] is an object with a [toString] property. *)
Definition oddError : Response.t :=
  Response.make 500 "Internal Server Error" []
    (inr (JObj [("error", JObj [("toString", JNum (Int 1))])])).

(** A 500 with an error text. *)
Definition failed : Response.t :=
  Response.make 500 "Internal Server Error" []
    (inr (JObj [("error", JStr "Database unavailable")])).

Definition malformedLimit : Response.t :=
  Response.make 200 "OK"
    [("x-ratelimit-limit", "many");
     ("x-ratelimit-remaining", "5");
     ("x-ratelimit-reset", "100")]
    (inr (JObj [])).

(** A network that gives the listed answers to the first [fetch] calls and
    [last] to the later ones. *)
Definition script (answers : list FetchResult) (last : FetchResult) : Network :=
  fun _ n => nth n answers last.

End Sample.

(* ===================================================================== *)
(** ** One turn of the attempt loop *)
(* ===================================================================== *)

Section Turn.

Variable net : Network.
Variable req : Request.t.

Lemma attemptBody_rejected attempt lastError w e :
  net req (fetches w) = Rejected e ->
  attemptBody net req attempt lastError w =
    if attempt =? Config.retries (this_config w)
    then (Throw (OtherErr e), fetched req w)
    else (Normal (Continue (Some (OtherErr e))),
          record (Delay (Int (2 ^ attempt * 1000))) (fetched req w)).
Proof.
  intros Hnet. run. rewrite Hnet. cbn.
  destruct (attempt =? Config.retries (this_config w)); reflexivity.
Qed.

Lemma attemptBody_undecodable attempt lastError w r e :
  net req (fetches w) = Resolved r ->
  Response.ok r = true ->
  Response.json r = inl e ->
  attemptBody net req attempt lastError w =
    if attempt =? Config.retries (this_config w)
    then (Throw (OtherErr e), fetched req w)
    else (Normal (Continue (Some (OtherErr e))),
          record (Delay (Int (2 ^ attempt * 1000))) (fetched req w)).
Proof.
  intros Hnet Hok Hjson. run. rewrite Hnet, Hok, Hjson. cbn.
  destruct (attempt =? Config.retries (this_config w)); reflexivity.
Qed.

Lemma attemptBody_success attempt lastError w r data :
  net req (fetches w) = Resolved r ->
  Response.ok r = true ->
  Response.json r = inr data ->
  attemptBody net req attempt lastError w =
    (Normal (Return (JObj (assign "rateLimit"
                             (RateLimitInfo.optValue (extractRateLimit r))
                             (ownProps data)))),
     fetched req w).
Proof.
  intros Hnet Hok Hjson. run. rewrite Hnet, Hok, Hjson. reflexivity.
Qed.

Lemma attemptBody_rate_limited attempt lastError w r :
  net req (fetches w) = Resolved r ->
  Response.ok r = false ->
  Response.status r = 429 ->
  attempt < Config.retries (this_config w) ->
  attemptBody net req attempt lastError w =
    (Normal (Continue lastError),
     record (Delay (mul (parseInt (or_str (Headers.get "Retry-After"
                                             (Response.headers r)) "1"))
                        (Int 1000)))
            (fetched req w)).
Proof.
  intros Hnet Hok Hstatus Hlt. run. rewrite Hnet, Hok, Hstatus.
  apply Z.ltb_lt in Hlt.
  destruct (Response.json r); cbn; rewrite Hlt; reflexivity.
Qed.

Lemma attemptBody_failed attempt lastError w r :
  net req (fetches w) = Resolved r ->
  Response.ok r = false ->
  (Response.status r =? 429) && (attempt <? Config.retries (this_config w)) = false ->
  attemptBody net req attempt lastError w =
    match WardenAPIError.new (errorMessage r) (Response.status r) (safeBody r)
            (extractRateLimit r) with
    | Some error => (Throw (WardenErr error), fetched req w)
    | None =>
        if attempt =? Config.retries (this_config w)
        then (Throw ConversionErr, fetched req w)
        else (Normal (Continue (Some ConversionErr)),
              record (Delay (Int (2 ^ attempt * 1000))) (fetched req w))
    end.
Proof.
  intros Hnet Hok Hcond. run. rewrite Hnet, Hok.
  unfold errorMessage, safeBody, httpMessage.
  destruct (Response.json r); cbn -[WardenAPIError.new]; rewrite Hcond;
    match goal with
    | |- context [WardenAPIError.new ?m ?c ?d ?l] =>
        destruct (WardenAPIError.new m c d l)
    end; cbn; try reflexivity;
    destruct (attempt =? Config.retries (this_config w)); reflexivity.
Qed.

(** A turn makes exactly one [fetch] call and leaves [this.config] alone. *)
Lemma attemptBody_frame attempt lastError w :
  this_config (snd (attemptBody net req attempt lastError w)) = this_config w /\
  fetches (snd (attemptBody net req attempt lastError w)) = S (fetches w).
Proof.
  run.
  destruct (net req (fetches w)) as [e | r]; cbn.
  - destruct (attempt =? _); cbn; auto.
  - destruct (Response.ok r); cbn.
    + destruct (Response.json r); cbn; auto.
      destruct (attempt =? _); cbn; auto.
    + destruct (Response.json r); cbn;
        destruct ((Response.status r =? 429) && (attempt <? _));
        cbn -[WardenAPIError.new]; auto;
        match goal with
        | |- context [WardenAPIError.new ?m ?c ?d ?l] =>
            destruct (WardenAPIError.new m c d l)
        end; cbn; auto;
        destruct (attempt =? _); cbn; auto.
Qed.

End Turn.

(* ===================================================================== *)
(** ** The attempt loop *)
(* ===================================================================== *)

Section Loop.

Variable net : Network.
Variable req : Request.t.

Lemma attempts_cons attempt rest lastError w :
  attempts net req (attempt :: rest) lastError w =
    match attemptBody net req attempt lastError w with
    | (Normal (Continue lastError'), w') => attempts net req rest lastError' w'
    | (Normal (Return v), w') => (Normal v, w')
    | (Throw e, w') => (Throw e, w')
    end.
Proof.
  cbn [attempts]. unfold bind at 1.
  destruct (attemptBody net req attempt lastError w) as [[[le | v] | e] w'];
    reflexivity.
Qed.

(** Retried turns can be skipped: the loop goes on from where they end. *)
Lemma attempts_app before after lastError w lastError' w' :
  retryAll net req before lastError w = Some (lastError', w') ->
  attempts net req (before ++ after)%list lastError w =
    attempts net req after lastError' w'.
Proof.
  revert lastError w.
  induction before as [| attempt before IH]; intros lastError w H.
  - cbn in H. injection H as <- <-. reflexivity.
  - cbn [retryAll] in H. rewrite <- app_comm_cons, attempts_cons.
    destruct (attemptBody net req attempt lastError w) as [[[le | v] | e] w1];
      try discriminate.
    now apply IH.
Qed.

Lemma retryAll_frame indices lastError w lastError' w' :
  retryAll net req indices lastError w = Some (lastError', w') ->
  this_config w' = this_config w /\
  fetches w' = (fetches w + List.length indices)%nat.
Proof.
  revert lastError w.
  induction indices as [| attempt indices IH]; intros lastError w H.
  - cbn in H. injection H as <- <-. cbn. split; [reflexivity | lia].
  - cbn [retryAll] in H.
    pose proof (attemptBody_frame net req attempt lastError w) as [Hc Hf].
    destruct (attemptBody net req attempt lastError w) as [[[le | v] | e] w1];
      try discriminate.
    cbn in Hc, Hf. apply IH in H as [H1 H2].
    rewrite H1, H2, Hc, Hf. cbn. split; [reflexivity | lia].
Qed.

(** The loop leaves [this.config] alone and makes at most one [fetch] call
    per index. *)
Lemma attempts_frame indices lastError w :
  this_config (snd (attempts net req indices lastError w)) = this_config w /\
  (fetches (snd (attempts net req indices lastError w))
     <= fetches w + List.length indices)%nat.
Proof.
  revert lastError w.
  induction indices as [| attempt indices IH]; intros lastError w.
  - cbn. destruct lastError; cbn; split; auto; lia.
  - rewrite attempts_cons.
    pose proof (attemptBody_frame net req attempt lastError w) as [Hc Hf].
    destruct (attemptBody net req attempt lastError w) as [[[le | v] | e] w1];
      cbn in Hc, Hf |- *.
    + destruct (IH le w1) as [H1 H2]. rewrite H1, Hc. split; [reflexivity | lia].
    + split; [assumption | lia].
    + split; [assumption | lia].
Qed.

End Loop.

(** *** The indices of the loop *)

Lemma attemptIndices_length retries :
  0 <= retries -> Z.of_nat (List.length (attemptIndices retries)) = retries + 1.
Proof.
  intros H. unfold attemptIndices. rewrite length_map, length_seq. lia.
Qed.

Lemma attemptIndices_In retries attempt :
  In attempt (attemptIndices retries) <-> 0 <= attempt <= retries.
Proof.
  unfold attemptIndices. rewrite in_map_iff. split.
  - intros (n & <- & Hn). apply in_seq in Hn. lia.
  - intros H. exists (Z.to_nat attempt). split; [lia |].
    apply in_seq. lia.
Qed.

Lemma attemptIndices_nth retries (i : nat) :
  Z.of_nat i <= retries ->
  nth_error (attemptIndices retries) i = Some (Z.of_nat i).
Proof.
  intros H. unfold attemptIndices.
  rewrite nth_error_map, nth_error_seq.
  destruct (Nat.ltb_spec i (Z.to_nat (retries + 1))); [reflexivity | lia].
Qed.

Lemma attemptIndices_split attempt retries :
  0 <= attempt <= retries ->
  attemptIndices retries =
    (attemptIndices (attempt - 1) ++ attempt :: indicesAfter attempt retries)%list.
Proof.
  intros H. unfold attemptIndices, indicesAfter.
  replace (Z.to_nat (retries + 1))
    with (Z.to_nat attempt + S (Z.to_nat (retries - attempt)))%nat by lia.
  rewrite seq_app, map_app. cbn [seq map Nat.add].
  replace (attempt - 1 + 1) with attempt by lia.
  replace (Z.of_nat (Z.to_nat attempt)) with attempt by lia.
  reflexivity.
Qed.

Lemma indicesAfter_last retries : indicesAfter retries retries = [].
Proof. unfold indicesAfter. rewrite Z.sub_diag. reflexivity. Qed.

(** *** [makeRequest] and its signal *)

Lemma makeRequest_in_range net endpoint options w :
  signalRange (signalDelay (this_config w) options) ->
  makeRequest net endpoint options w =
    attempts net (requestOptions (this_config w) endpoint options)
      (attemptIndices (Config.retries (this_config w))) None w.
Proof.
  unfold signalRange, signalDelay. intros [Hlow Hhigh].
  unfold makeRequest, bind, getConfig, abortSignalTimeout. cbn [this_config].
  apply Z.leb_le in Hlow, Hhigh. rewrite Hlow, Hhigh. reflexivity.
Qed.

(** Outside the range, [AbortSignal.timeout] ends the call before the loop. *)
Lemma makeRequest_out_of_range net endpoint options w :
  ~ signalRange (signalDelay (this_config w) options) ->
  makeRequest net endpoint options w =
    (Throw (SignalRangeErr (signalDelay (this_config w) options)), w).
Proof.
  unfold signalRange, signalDelay. intros Hout.
  unfold makeRequest, bind, getConfig, abortSignalTimeout. cbn [this_config].
  destruct ((0 <=? _) && (_ <=? 4294967295)) eqn:E; [| reflexivity].
  exfalso. apply Hout. apply andb_true_iff in E as [Hlow Hhigh].
  apply Z.leb_le in Hlow, Hhigh. split; assumption.
Qed.

Lemma signalRange_dec ms : {signalRange ms} + {~ signalRange ms}.
Proof.
  unfold signalRange.
  destruct (Z_le_dec 0 ms); [| right; lia].
  destruct (Z_le_dec ms 4294967295); [left | right]; lia.
Qed.

(** *** [makeRequest] at the turn it has reached *)

Lemma makeRequest_at net endpoint options w attempt lastError w1 :
  signalRange (signalDelay (this_config w) options) ->
  0 <= attempt <= Config.retries (this_config w) ->
  reaches net (requestOptions (this_config w) endpoint options) attempt w
    = Some (lastError, w1) ->
  this_config w1 = this_config w /\
  fetches w1 = (fetches w + Z.to_nat attempt)%nat /\
  makeRequest net endpoint options w =
    attempts net (requestOptions (this_config w) endpoint options)
      (attempt :: indicesAfter attempt (Config.retries (this_config w)))
      lastError w1.
Proof.
  intros Hrange Ha Hreach. unfold reaches in Hreach.
  pose proof (retryAll_frame _ _ _ _ _ _ _ Hreach) as [Hc Hf].
  repeat split; [assumption | |].
  - rewrite Hf. unfold attemptIndices. rewrite length_map, length_seq.
    f_equal. lia.
  - rewrite makeRequest_in_range by assumption.
    rewrite (attemptIndices_split _ _ Ha).
    now apply attempts_app.
Qed.

(** With a negative budget the loop body never runs and [throw lastError!]
    throws the unassigned variable. *)
Lemma makeRequest_negative_budget net endpoint options w :
  signalRange (signalDelay (this_config w) options) ->
  Config.retries (this_config w) < 0 ->
  makeRequest net endpoint options w = (Throw ThrownUndefined, w).
Proof.
  intros Hrange H. rewrite makeRequest_in_range by assumption.
  unfold attemptIndices.
  replace (Z.to_nat (Config.retries (this_config w) + 1)) with 0%nat by lia.
  reflexivity.
Qed.

(* ===================================================================== *)
(** ** Transport failures: the attempt budget and the backoff *)
(* ===================================================================== *)

Lemma attempts_all_rejected net req :
  forall (n a : nat) lastError w (e : nat -> JSError.t),
    Z.of_nat (a + n) = Config.retries (this_config w) ->
    (forall i, (i <= n)%nat -> net req (fetches w + i)%nat = Rejected (e i)) ->
    attempts net req (map Z.of_nat (seq a (S n))) lastError w =
      (Throw (OtherErr (e n)),
       mkWorld (this_config w) (fetches w + S n)
         (log w ++
          flat_map (fun i => [Fetch req; Delay (Int (2 ^ Z.of_nat i * 1000))])
                   (seq a n)
          ++ [Fetch req])).
Proof.
  induction n as [| n IH]; intros a lastError w e Hlast Hnet.
  - cbn [seq map flat_map]. rewrite attempts_cons.
    rewrite (attemptBody_rejected net req _ lastError w (e 0%nat)).
    2:{ rewrite <- (Hnet 0%nat) by lia. f_equal. lia. }
    replace (Z.of_nat a =? Config.retries (this_config w)) with true
      by (symmetry; apply Z.eqb_eq; lia).
    unfold fetched. do 2 f_equal. lia.
  - cbn [seq map]. rewrite attempts_cons.
    rewrite (attemptBody_rejected net req _ lastError w (e 0%nat)).
    2:{ rewrite <- (Hnet 0%nat) by lia. f_equal. lia. }
    replace (Z.of_nat a =? Config.retries (this_config w)) with false
      by (symmetry; apply Z.eqb_neq; lia).
    rewrite (IH (S a) _ _ (fun i => e (S i))).
    + cbn [record fetched this_config fetches log flat_map].
      f_equal. f_equal; [lia |].
      rewrite <- !app_assoc. reflexivity.
    + cbn [record fetched this_config]. lia.
    + intros i Hi. cbn [record fetched fetches].
      rewrite <- (Hnet (S i)) by lia. f_equal. lia.
Qed.

(** C1. Once [AbortSignal.timeout] has accepted the timeout, the attempt
    loop of [makeRequest] runs over the indices 0 to [retries] inclusive,
    [retries + 1] of them, and no invocation makes more [fetch] calls than
    that.  When every attempt is rejected by the
    transport, the error of the last attempt is thrown to the caller, and the
    effects are the [retries + 1] fetches with a delay of [2^i] seconds
    (1000, 2000, 4000, ... ms) after the attempt of index [i], for every
    attempt but the last. *)
Theorem makeRequest_transport_failures
    net endpoint options w (e : nat -> JSError.t) :
  let config := this_config w in
  let req := requestOptions config endpoint options in
  let n := Z.to_nat (Config.retries config) in
  signalRange (signalDelay config options) ->
  0 <= Config.retries config ->
  (forall i, (i <= n)%nat -> net req (fetches w + i)%nat = Rejected (e i)) ->
  (forall attempt,
      In attempt (attemptIndices (Config.retries config))
      <-> 0 <= attempt <= Config.retries config) /\
  Z.of_nat (List.length (attemptIndices (Config.retries config)))
    = Config.retries config + 1 /\
  (forall net',
      (fetches (snd (makeRequest net' endpoint options w))
         <= fetches w + (n + 1))%nat) /\
  makeRequest net endpoint options w =
    (Throw (OtherErr (e n)),
     mkWorld config (fetches w + (n + 1)) (log w ++ backoffLog req n)).
Proof.
  intros config req n Hrange Hretries Hnet.
  split; [intros attempt; apply attemptIndices_In |].
  split; [now apply attemptIndices_length |].
  split.
  - intros net'. rewrite makeRequest_in_range by assumption.
    destruct (attempts_frame net' req (attemptIndices (Config.retries config))
                None w) as [_ H].
    fold config req. unfold attemptIndices in H at 2.
    rewrite length_map, length_seq in H. fold n. lia.
  - rewrite makeRequest_in_range by assumption.
    fold config req. unfold attemptIndices.
    replace (Z.to_nat (Config.retries config + 1)) with (S n) by lia.
    rewrite (attempts_all_rejected net req n 0%nat None w e);
      [| unfold n, config in *; lia | assumption].
    unfold backoffLog. do 2 f_equal. lia.
Qed.

Lemma makeRequest_transport_failures_witness :
  makeRequest Sample.down "/server/1" RequestOptions.empty (newWorld Sample.config)
  = (Throw (OtherErr Sample.fetchFailed),
     mkWorld Sample.config 4
       [Fetch Sample.req; Delay (Int 1000);
        Fetch Sample.req; Delay (Int 2000);
        Fetch Sample.req; Delay (Int 4000);
        Fetch Sample.req]).
Proof.
  apply (makeRequest_transport_failures Sample.down "/server/1"
           RequestOptions.empty (newWorld Sample.config)
           (fun _ => Sample.fetchFailed)).
  - in_range.
  - cbn. lia.
  - reflexivity.
Defined.

Lemma indicesAfter_next attempt retries :
  0 <= attempt < retries ->
  indicesAfter attempt retries
    = (attempt + 1) :: indicesAfter (attempt + 1) retries.
Proof.
  intros H. unfold indicesAfter.
  replace (Z.to_nat (retries - attempt))
    with (S (Z.to_nat (retries - (attempt + 1)))) by lia.
  cbn [seq map]. f_equal; [lia |].
  replace (Z.to_nat (attempt + 1)) with (S (Z.to_nat attempt)) by lia.
  reflexivity.
Qed.

Lemma ok_429 r : Response.status r = 429 -> Response.ok r = false.
Proof. intros H. unfold Response.ok. rewrite H. reflexivity. Qed.

(* ===================================================================== *)
(** ** Rate limiting (429) *)
(* ===================================================================== *)

(** C2, as the code has it.  When the loop has reached the attempt
    [attempt] and the response there has status 429:
    - if [attempt < retries], the executor sleeps and goes on with the
      attempt [attempt + 1], [lastError] unchanged; the sleep is 1000 ms
      when the Retry-After header is absent or empty, and otherwise
      [parseInt(header) * 1000] ms, which is NaN (no default is applied) when
      the header does not start with a number;
    - if [attempt = retries] and the error message converts to the string
      [message], it throws a [WardenAPIError] with that message and status
      code 429 that carries the body and the rate-limit info of the
      response.
    The statement is for a call whose timeout [AbortSignal.timeout] accepts
    and, in its second part, for a message whose numbers are those of the
    model. *)
Theorem makeRequest_rate_limited
    net endpoint options w attempt lastError w1 r :
  let config := this_config w in
  let req := requestOptions config endpoint options in
  signalRange (signalDelay config options) ->
  0 <= attempt <= Config.retries config ->
  reaches net req attempt w = Some (lastError, w1) ->
  net req (fetches w1) = Resolved r ->
  Response.status r = 429 ->
  (attempt < Config.retries config ->
   exists ms,
     makeRequest net endpoint options w =
       attempts net req
         ((attempt + 1) :: indicesAfter (attempt + 1) (Config.retries config))
         lastError (record (Delay ms) (fetched req w1)) /\
     (truthy_str (Headers.get "Retry-After" (Response.headers r)) = false ->
      ms = Int 1000) /\
     (forall s,
        Headers.get "Retry-After" (Response.headers r) = Some s -> s <> "" ->
        ms = mul (parseInt s) (Int 1000) /\
        (parseInt s = NaN -> ms = NaN))) /\
  (attempt = Config.retries config ->
   forall message,
     toString (errorMessage r) = Some message ->
     safe (errorMessage r) = true ->
     makeRequest net endpoint options w =
       (Throw (WardenErr
          {| WardenAPIError.message := message;
             WardenAPIError.statusCode := Some 429;
             WardenAPIError.responseData := safeBody r;
             WardenAPIError.rateLimit := extractRateLimit r |}),
        fetched req w1)).
Proof.
  intros config req Hrange Ha Hreach Hnet Hstatus.
  destruct (makeRequest_at net endpoint options w attempt lastError w1
              Hrange Ha Hreach)
    as (Hc & _ & Heq).
  fold config req in Heq. rewrite Heq, attempts_cons. clear Heq.
  pose proof (ok_429 r Hstatus) as Hok.
  split.
  - intros Hlt.
    rewrite (attemptBody_rate_limited net req attempt lastError w1 r Hnet Hok Hstatus)
      by (rewrite Hc; exact Hlt).
    rewrite indicesAfter_next by lia.
    eexists. split; [reflexivity |]. split.
    + destruct (Headers.get "Retry-After" (Response.headers r)) as [s |]; cbn.
      * destruct (s =? "")%string; [reflexivity | discriminate].
      * reflexivity.
    + intros s Hs Hne. rewrite Hs. cbn [or_str].
      apply String.eqb_neq in Hne. rewrite Hne.
      split; [reflexivity |]. intros ->. reflexivity.
  - intros -> message Hmessage _.
    rewrite (attemptBody_failed net req (Config.retries config) lastError w1 r Hnet Hok).
    + unfold WardenAPIError.new. rewrite Hmessage, Hstatus. reflexivity.
    + rewrite Hc. fold config. rewrite Z.ltb_irrefl. apply andb_false_r.
Qed.

Lemma makeRequest_rate_limited_witness :
  makeRequest (Sample.firstThen Sample.tooMany Sample.found) "/server/1"
    RequestOptions.empty (newWorld Sample.config)
  = (Normal (JObj [("id", JStr "1"); ("name", JStr "X"); ("type", JStr "CHEATING");
                   ("rateLimit",
                    JObj [("limit", JNum (Int 100)); ("remaining", JNum (Int 99));
                          ("reset", JNum (Int 1640995200));
                          ("retryAfter", JUndefined)])]),
     mkWorld Sample.config 2
       [Fetch Sample.req; Delay (Int 7000); Fetch Sample.req]).
Proof.
  destruct (makeRequest_rate_limited
              (Sample.firstThen Sample.tooMany Sample.found) "/server/1"
              RequestOptions.empty (newWorld Sample.config) 0 None
              (newWorld Sample.config) Sample.tooMany)
    as [H _].
  - in_range.
  - cbn. lia.
  - reflexivity.
  - reflexivity.
  - reflexivity.
  - destruct H as (ms & Heq & _ & Hms); [cbn; lia |].
    destruct (Hms "7" eq_refl) as [-> _]; [discriminate |].
    rewrite Heq. reflexivity.
Defined.

(** C2 as the specification states it fails: a Retry-After header that does
    not parse is not replaced by the default of one second; the timer is
    started with NaN. *)
Lemma retry_after_unparsable_is_not_defaulted :
  log (snd (makeRequest (Sample.firstThen Sample.tooManyUntil Sample.found)
              "/server/1" RequestOptions.empty (newWorld Sample.config)))
    = [Fetch Sample.req; Delay NaN; Fetch Sample.req]
  /\ Delay NaN <> Delay (Int 1000).
Proof. split; [reflexivity | discriminate]. Qed.

(* ===================================================================== *)
(** ** Error responses *)
(* ===================================================================== *)

(** C3 holds of the code only for a body whose [error] converts to a
    string.  At a 500 whose body is [{ "error": { "toString": 1 } }] the
    message is that object, [new WardenAPIError] throws the TypeError of its
    conversion inside the [try], and the [catch] block takes it for a
    transport failure: the executor sleeps and sends the request again,
    [retries + 1] times in all, and then throws the TypeError, not a
    [WardenAPIError]. *)
Lemma makeRequest_error_response_unconvertible :
  makeRequest (Sample.always Sample.oddError) "/server/1" RequestOptions.empty
    (newWorld Sample.config)
  = (Throw ConversionErr,
     mkWorld Sample.config 4
       [Fetch Sample.req; Delay (Int 1000);
        Fetch Sample.req; Delay (Int 2000);
        Fetch Sample.req; Delay (Int 4000);
        Fetch Sample.req]).
Proof. reflexivity. Qed.

(** X16. When the loop has reached the attempt [attempt], the response
    there is not ok and is not a 429 with attempts left, and its error
    message converts to the string [message], [makeRequest] throws a
    [WardenAPIError] at once: the world is the one of that single [fetch],
    whatever the remaining budget.  The error carries the status, the body
    ([null] when the body does not parse; that is no error of its own) and
    the rate-limit info.  Its message is the [error] property of the body
    when the body is an object that has one and it is a string that is not
    empty, and ["HTTP <status>: <statusText>"] when the body is an object
    whose [error] is absent or falsy, is [null], or does not parse.
    The statement is for a call whose timeout [AbortSignal.timeout] accepts
    and a message whose numbers are those of the model. *)
Theorem makeRequest_error_response
    net endpoint options w attempt lastError w1 r message :
  let config := this_config w in
  let req := requestOptions config endpoint options in
  signalRange (signalDelay config options) ->
  0 <= attempt <= Config.retries config ->
  reaches net req attempt w = Some (lastError, w1) ->
  net req (fetches w1) = Resolved r ->
  Response.ok r = false ->
  (Response.status r =? 429) && (attempt <? Config.retries config) = false ->
  toString (errorMessage r) = Some message ->
  safe (errorMessage r) = true ->
  makeRequest net endpoint options w =
    (Throw (WardenErr
       {| WardenAPIError.message := message;
          WardenAPIError.statusCode := Some (Response.status r);
          WardenAPIError.responseData := safeBody r;
          WardenAPIError.rateLimit := extractRateLimit r |}),
     fetched req w1) /\
  (forall props s,
     Response.json r = inr (JObj props) -> lookup "error" props = JStr s ->
     s <> "" -> message = s) /\
  (forall props,
     Response.json r = inr (JObj props) -> truthy (lookup "error" props) = false ->
     message = httpMessage r) /\
  (Response.json r = inr JNull -> message = httpMessage r) /\
  (forall e, Response.json r = inl e ->
             safeBody r = JNull /\ message = httpMessage r).
Proof.
  intros config req Hrange Ha Hreach Hnet Hok Hcond Hmessage _.
  destruct (makeRequest_at net endpoint options w attempt lastError w1
              Hrange Ha Hreach)
    as (Hc & _ & Heq).
  fold config req in Heq. rewrite Heq, attempts_cons. clear Heq.
  rewrite (attemptBody_failed net req attempt lastError w1 r Hnet Hok)
    by (rewrite Hc; exact Hcond).
  unfold WardenAPIError.new. rewrite Hmessage.
  split; [reflexivity |].
  unfold errorMessage, or_val in Hmessage. unfold safeBody in Hmessage |- *.
  split; [| split; [| split]].
  - intros props s Hjson Hs Hne. rewrite Hjson in Hmessage.
    change (optGet (JObj props) "error") with (lookup "error" props) in Hmessage.
    rewrite Hs in Hmessage.
    cbn [truthy] in Hmessage. apply String.eqb_neq in Hne.
    rewrite Hne in Hmessage. cbn in Hmessage. now injection Hmessage as <-.
  - intros props Hjson Hfalsy. rewrite Hjson in Hmessage.
    change (optGet (JObj props) "error") with (lookup "error" props) in Hmessage.
    rewrite Hfalsy in Hmessage.
    cbn in Hmessage. now injection Hmessage as <-.
  - intros Hjson. rewrite Hjson in Hmessage. cbn in Hmessage.
    now injection Hmessage as <-.
  - intros e Hjson. rewrite Hjson in Hmessage |- *. cbn in Hmessage.
    split; [reflexivity |]. now injection Hmessage as <-.
Qed.

Lemma makeRequest_error_response_witness :
  makeRequest (Sample.firstThen Sample.tooMany Sample.failed) "/server/1"
    RequestOptions.empty (newWorld Sample.config)
  = (Throw (WardenErr
       {| WardenAPIError.message := "Database unavailable";
          WardenAPIError.statusCode := Some 500;
          WardenAPIError.responseData :=
            JObj [("error", JStr "Database unavailable")];
          WardenAPIError.rateLimit := None |}),
     mkWorld Sample.config 2
       [Fetch Sample.req; Delay (Int 7000); Fetch Sample.req]).
Proof.
  apply (makeRequest_error_response
           (Sample.firstThen Sample.tooMany Sample.failed) "/server/1"
           RequestOptions.empty (newWorld Sample.config) 1 None
           (mkWorld Sample.config 1 [Fetch Sample.req; Delay (Int 7000)])
           Sample.failed "Database unavailable").
  - in_range.
  - cbn. lia.
  - reflexivity.
  - reflexivity.
  - reflexivity.
  - reflexivity.
  - reflexivity.
  - reflexivity.
Defined.

(* ===================================================================== *)
(** ** Successful responses *)
(* ===================================================================== *)

Lemma lookup_hasOwn_false k props :
  hasOwn k props = false -> lookup k props = JUndefined.
Proof.
  induction props as [| [k' v'] props IH]; cbn; [reflexivity |].
  destruct (k =? k')%string; [discriminate | exact IH].
Qed.

Lemma lookup_replace_same k v props :
  hasOwn k props = true -> lookup k (replace k v props) = v.
Proof.
  induction props as [| [k' v'] props IH]; cbn; [discriminate |].
  destruct (k =? k')%string eqn:E; cbn.
  - now rewrite String.eqb_refl.
  - rewrite E. exact IH.
Qed.

Lemma lookup_replace_other k k' v props :
  k <> k' -> lookup k (replace k' v props) = lookup k props.
Proof.
  intros Hne. apply String.eqb_neq in Hne.
  induction props as [| [k0 v0] props IH]; cbn; [reflexivity |].
  destruct (k' =? k0)%string eqn:E; cbn.
  - apply String.eqb_eq in E. subst k0. now rewrite Hne.
  - destruct (k =? k0)%string; [reflexivity | exact IH].
Qed.

Lemma lookup_app k props1 props2 :
  lookup k (props1 ++ props2) =
    if hasOwn k props1 then lookup k props1 else lookup k props2.
Proof.
  induction props1 as [| [k' v'] props1 IH]; cbn; [reflexivity |].
  destruct (k =? k')%string; [reflexivity | exact IH].
Qed.

Lemma lookup_insertIndex_same k i v props :
  hasOwn k props = false -> lookup k (insertIndex i k v props) = v.
Proof.
  induction props as [| [k0 v0] props IH]; cbn.
  - now rewrite String.eqb_refl.
  - destruct (k =? k0)%string eqn:E; [discriminate |]. cbn. intros Hown.
    destruct (arrayIndex k0) as [j |]; [destruct (j <? i) |]; cbn;
      rewrite ?E, ?String.eqb_refl; auto.
Qed.

Lemma lookup_insertIndex_other k k' i v props :
  k <> k' -> lookup k (insertIndex i k' v props) = lookup k props.
Proof.
  intros Hne. apply String.eqb_neq in Hne.
  induction props as [| [k0 v0] props IH]; cbn.
  - now rewrite Hne.
  - destruct (arrayIndex k0) as [j |]; [destruct (j <? i) |]; cbn;
      rewrite ?Hne; try reflexivity.
    destruct (k =? k0)%string; [reflexivity | exact IH].
Qed.

Lemma lookup_assign_same k v props : lookup k (assign k v props) = v.
Proof.
  unfold assign. destruct (hasOwn k props) eqn:Hown.
  - now apply lookup_replace_same.
  - destruct (arrayIndex k) as [i |].
    + now apply lookup_insertIndex_same.
    + rewrite lookup_app, Hown. cbn. now rewrite String.eqb_refl.
Qed.

Lemma lookup_assign_other k k' v props :
  k <> k' -> lookup k (assign k' v props) = lookup k props.
Proof.
  intros Hne. unfold assign. destruct (hasOwn k' props).
  - now apply lookup_replace_other.
  - destruct (arrayIndex k') as [i |].
    + now apply lookup_insertIndex_other.
    + rewrite lookup_app. cbn. apply String.eqb_neq in Hne. rewrite Hne.
      destruct (hasOwn k props) eqn:Hown; [reflexivity |].
      symmetry. now apply lookup_hasOwn_false.
Qed.

Lemma extractRateLimit_incomplete r :
  truthy_str (Headers.get "X-RateLimit-Limit" (Response.headers r))
  && truthy_str (Headers.get "X-RateLimit-Remaining" (Response.headers r))
  && truthy_str (Headers.get "X-RateLimit-Reset" (Response.headers r)) = false ->
  extractRateLimit r = None.
Proof.
  unfold extractRateLimit, truthy_str, truthy.
  destruct (Headers.get "X-RateLimit-Limit" _) as [l |]; [| reflexivity].
  destruct (Headers.get "X-RateLimit-Remaining" _) as [m |]; [| reflexivity].
  destruct (Headers.get "X-RateLimit-Reset" _) as [s |]; [| reflexivity].
  intros ->. reflexivity.
Qed.

(** C5. When the loop has reached the attempt [attempt] and the response
    there is ok with a body that decodes to [data], [makeRequest] returns the
    object [{ ...data, rateLimit }]: its [rateLimit] is the info extracted
    from the headers, every other property is the own property of [data]
    under that key, and [rateLimit] reads [undefined] when one of the three
    rate-limit headers is absent (or empty).  The statement is for a call
    whose timeout [AbortSignal.timeout] accepts. *)
Theorem makeRequest_success
    net endpoint options w attempt lastError w1 r data :
  let config := this_config w in
  let req := requestOptions config endpoint options in
  signalRange (signalDelay config options) ->
  0 <= attempt <= Config.retries config ->
  reaches net req attempt w = Some (lastError, w1) ->
  net req (fetches w1) = Resolved r ->
  Response.ok r = true ->
  Response.json r = inr data ->
  exists result,
    makeRequest net endpoint options w = (Normal result, fetched req w1) /\
    result = JObj (assign "rateLimit"
                     (RateLimitInfo.optValue (extractRateLimit r))
                     (ownProps data)) /\
    get result "rateLimit" = RateLimitInfo.optValue (extractRateLimit r) /\
    (forall k, k <> "rateLimit" -> get result k = lookup k (ownProps data)) /\
    (Headers.get "X-RateLimit-Limit" (Response.headers r) = None \/
     Headers.get "X-RateLimit-Remaining" (Response.headers r) = None \/
     Headers.get "X-RateLimit-Reset" (Response.headers r) = None ->
     get result "rateLimit" = JUndefined) /\
    (truthy_str (Headers.get "X-RateLimit-Limit" (Response.headers r))
     && truthy_str (Headers.get "X-RateLimit-Remaining" (Response.headers r))
     && truthy_str (Headers.get "X-RateLimit-Reset" (Response.headers r)) = false ->
     get result "rateLimit" = JUndefined).
Proof.
  intros config req Hrange Ha Hreach Hnet Hok Hjson.
  destruct (makeRequest_at net endpoint options w attempt lastError w1
              Hrange Ha Hreach)
    as (Hc & _ & Heq).
  fold config req in Heq. rewrite Heq, attempts_cons. clear Heq.
  rewrite (attemptBody_success net req attempt lastError w1 r data Hnet Hok Hjson).
  eexists. split; [reflexivity |]. split; [reflexivity |].
  unfold get. cbn [ownProps]. rewrite lookup_assign_same.
  assert (Hinc :
    truthy_str (Headers.get "X-RateLimit-Limit" (Response.headers r))
    && truthy_str (Headers.get "X-RateLimit-Remaining" (Response.headers r))
    && truthy_str (Headers.get "X-RateLimit-Reset" (Response.headers r)) = false ->
    RateLimitInfo.optValue (extractRateLimit r) = JUndefined).
  { intros H. rewrite (extractRateLimit_incomplete r H). reflexivity. }
  split; [| split; [| split]]; [reflexivity | | |].
  - intros k Hk. now apply lookup_assign_other.
  - intros [H | [H | H]]; apply Hinc; rewrite H; cbn;
      rewrite ?andb_false_r; reflexivity.
  - exact Hinc.
Qed.

Lemma makeRequest_success_witness :
  makeRequest (Sample.firstThen Sample.tooMany Sample.found) "/server/1"
    RequestOptions.empty (newWorld Sample.config)
  = (Normal (JObj [("id", JStr "1"); ("name", JStr "X"); ("type", JStr "CHEATING");
                   ("rateLimit",
                    JObj [("limit", JNum (Int 100)); ("remaining", JNum (Int 99));
                          ("reset", JNum (Int 1640995200));
                          ("retryAfter", JUndefined)])]),
     mkWorld Sample.config 2
       [Fetch Sample.req; Delay (Int 7000); Fetch Sample.req]).
Proof.
  destruct (makeRequest_success
              (Sample.firstThen Sample.tooMany Sample.found) "/server/1"
              RequestOptions.empty (newWorld Sample.config) 1 None
              (mkWorld Sample.config 1 [Fetch Sample.req; Delay (Int 7000)])
              Sample.found
              (JObj [("id", JStr "1"); ("name", JStr "X"); ("type", JStr "CHEATING")]))
    as (result & Heq & -> & _).
  - in_range.
  - cbn. lia.
  - reflexivity.
  - reflexivity.
  - reflexivity.
  - reflexivity.
  - exact Heq.
Defined.

(* ===================================================================== *)
(** ** A success status with a body that does not decode *)
(* ===================================================================== *)

(** C10. When the loop has reached the attempt [attempt] and the response
    there is ok but [response.json()] rejects with [e], the turn is handled
    by the [catch] block like a transport failure: with attempts left the
    executor sleeps [2^attempt] seconds and goes on with the attempt
    [attempt + 1] ([e] becomes [lastError]); on the last attempt it throws
    [e] itself.  The turn never throws a [WardenAPIError].  The statement is
    for a call whose timeout [AbortSignal.timeout] accepts. *)
Theorem makeRequest_undecodable_success
    net endpoint options w attempt lastError w1 r e :
  let config := this_config w in
  let req := requestOptions config endpoint options in
  signalRange (signalDelay config options) ->
  0 <= attempt <= Config.retries config ->
  reaches net req attempt w = Some (lastError, w1) ->
  net req (fetches w1) = Resolved r ->
  Response.ok r = true ->
  Response.json r = inl e ->
  (attempt < Config.retries config ->
   makeRequest net endpoint options w =
     attempts net req
       ((attempt + 1) :: indicesAfter (attempt + 1) (Config.retries config))
       (Some (OtherErr e))
       (record (Delay (Int (2 ^ attempt * 1000))) (fetched req w1))) /\
  (attempt = Config.retries config ->
   makeRequest net endpoint options w = (Throw (OtherErr e), fetched req w1)) /\
  (forall d, fst (attemptBody net req attempt lastError w1) <> Throw (WardenErr d)).
Proof.
  intros config req Hrange Ha Hreach Hnet Hok Hjson.
  destruct (makeRequest_at net endpoint options w attempt lastError w1
              Hrange Ha Hreach)
    as (Hc & _ & Heq).
  fold config req in Heq. rewrite Heq, attempts_cons. clear Heq.
  rewrite (attemptBody_undecodable net req attempt lastError w1 r e Hnet Hok Hjson).
  rewrite Hc. fold config.
  split; [| split].
  - intros Hlt.
    replace (attempt =? Config.retries config) with false
      by (symmetry; apply Z.eqb_neq; lia).
    rewrite indicesAfter_next by lia. reflexivity.
  - intros ->. rewrite Z.eqb_refl. reflexivity.
  - intros d. destruct (attempt =? Config.retries config); cbn; discriminate.
Qed.

Lemma makeRequest_undecodable_success_witness :
  makeRequest (Sample.firstThen Sample.htmlPage Sample.found) "/server/1"
    RequestOptions.empty (newWorld Sample.config)
  = (Normal (JObj [("id", JStr "1"); ("name", JStr "X"); ("type", JStr "CHEATING");
                   ("rateLimit",
                    JObj [("limit", JNum (Int 100)); ("remaining", JNum (Int 99));
                          ("reset", JNum (Int 1640995200));
                          ("retryAfter", JUndefined)])]),
     mkWorld Sample.config 2
       [Fetch Sample.req; Delay (Int 1000); Fetch Sample.req]).
Proof.
  destruct (makeRequest_undecodable_success
              (Sample.firstThen Sample.htmlPage Sample.found) "/server/1"
              RequestOptions.empty (newWorld Sample.config) 0 None
              (newWorld Sample.config) Sample.htmlPage Sample.syntaxError)
    as (H & _ & _).
  - in_range.
  - cbn. lia.
  - reflexivity.
  - reflexivity.
  - reflexivity.
  - reflexivity.
  - rewrite H by (cbn; lia). reflexivity.
Defined.

(* ===================================================================== *)
(** ** Rate-limit headers *)
(* ===================================================================== *)

(** C6, as the code has it.  [extractRateLimit] gives a [RateLimitInfo]
    exactly when the limit, remaining and reset headers are all present and
    not empty, and none when one of them is absent.  Its fields are
    [parseInt] of the header values, so a value that is not a number gives
    the field NaN: a malformed header does not withhold the info. *)
Theorem extractRateLimit_present r :
  let limit := Headers.get "X-RateLimit-Limit" (Response.headers r) in
  let remaining := Headers.get "X-RateLimit-Remaining" (Response.headers r) in
  let reset := Headers.get "X-RateLimit-Reset" (Response.headers r) in
  let retryAfter := Headers.get "Retry-After" (Response.headers r) in
  (extractRateLimit r <> None <->
   truthy_str limit && truthy_str remaining && truthy_str reset = true) /\
  (limit = None \/ remaining = None \/ reset = None -> extractRateLimit r = None) /\
  (forall l m s,
     limit = Some l -> remaining = Some m -> reset = Some s ->
     l <> "" -> m <> "" -> s <> "" ->
     extractRateLimit r =
       Some {| RateLimitInfo.limit := parseInt l;
               RateLimitInfo.remaining := parseInt m;
               RateLimitInfo.reset := parseInt s;
               RateLimitInfo.retryAfter :=
                 if truthy_str retryAfter
                 then option_map parseInt retryAfter
                 else None |}).
Proof.
  intros limit remaining reset retryAfter.
  split; [| split].
  - split.
    + intros H.
      destruct (truthy_str limit && truthy_str remaining && truthy_str reset)
        eqn:E; [reflexivity |].
      exfalso. apply H. now apply extractRateLimit_incomplete.
    + unfold extractRateLimit. fold limit remaining reset retryAfter.
      destruct limit as [l |]; [| discriminate].
      destruct remaining as [m |]; [| cbn; rewrite andb_false_r; discriminate].
      destruct reset as [s |]; [| cbn; rewrite andb_false_r; discriminate].
      unfold truthy_str, truthy. intros ->. discriminate.
  - intros H. apply extractRateLimit_incomplete.
    fold limit remaining reset.
    destruct H as [-> | [-> | ->]]; cbn; rewrite ?andb_false_r; reflexivity.
  - intros l m s Hl Hm Hs Hl' Hm' Hs'.
    unfold extractRateLimit. fold limit remaining reset retryAfter.
    rewrite Hl, Hm, Hs. cbn [truthy].
    apply String.eqb_neq in Hl', Hm', Hs'. rewrite Hl', Hm', Hs'. cbn.
    destruct retryAfter as [a |]; cbn; [| reflexivity].
    destruct (a =? "")%string; reflexivity.
Qed.

(** C6 as the specification states it fails: a malformed limit header does
    not prevent the [RateLimitInfo]; its limit is NaN. *)
Lemma malformed_header_yields_rate_limit :
  extractRateLimit Sample.malformedLimit
    = Some {| RateLimitInfo.limit := NaN;
              RateLimitInfo.remaining := Int 5;
              RateLimitInfo.reset := Int 100;
              RateLimitInfo.retryAfter := None |}
  /\ extractRateLimit Sample.malformedLimit <> None.
Proof. split; [reflexivity | discriminate]. Qed.

(* ===================================================================== *)
(** ** Construction *)
(* ===================================================================== *)

Lemma makeRequest_frame net endpoint options w :
  this_config (snd (makeRequest net endpoint options w)) = this_config w.
Proof.
  destruct (signalRange_dec (signalDelay (this_config w) options)) as [Hin | Hout].
  - rewrite makeRequest_in_range by assumption. apply attempts_frame.
  - rewrite makeRequest_out_of_range by assumption. reflexivity.
Qed.

Lemma tryCatch_frame (m : M JSValue) (soft : JSValue) w :
  this_config (snd (m w)) = this_config w ->
  this_config
    (snd (tryCatch m
            (fun error => if isNotFound error then ret soft else throw error) w))
    = this_config w.
Proof.
  unfold tryCatch. destruct (m w) as [[v | e] w']; cbn; [easy |].
  destruct (isNotFound e); cbn; easy.
Qed.

(** No public method assigns [this.config]. *)
Lemma invoke_frame net call w :
  this_config (snd (invoke net call w)) = this_config w.
Proof.
  destruct call; cbn [invoke];
    unfold isServerFlagged, isUserFlagged, checkServerById, checkServerByName,
      checkServers, checkUserById, getServerInfo;
    try (apply tryCatch_frame; apply makeRequest_frame);
    try apply makeRequest_frame.
  - unfold bind.
    pose proof (tryCatch_frame
      (makeRequest net ("/server/" ++ serverId) RequestOptions.empty)
      (JObj [("error", JStr "Server not found")]) w
      (makeRequest_frame net _ _ w)) as H.
    destruct (tryCatch _ _ w) as [[response | e] w']; cbn in *;
      [unfold bind, ret; cbn |]; exact H.
  - unfold bind.
    pose proof (tryCatch_frame
      (makeRequest net "/user"
         (POST (JSON.stringify
                  (JObj [("data", JObj [("type", JStr "id"); ("id", JStr userId)])]))))
      (JObj [("error", JStr "User not found")]) w
      (makeRequest_frame net _ _ w)) as H.
    destruct (tryCatch _ _ w) as [[response | e] w']; cbn in *;
      [unfold bind, ret; cbn |]; exact H.
Qed.

(** C7. The constructor throws an error when the API key is missing or
    empty, and when it does not start with [wd_].  With a key that starts
    with [wd_] it succeeds: the key is stored, a field left out gets its
    default (the default base URL, 10000 ms, 3 retries) and a field given
    with a truthy value is stored as given.  No public method changes
    [this.config] afterwards. *)
Theorem constructor_validates config :
  (WardenConfig.apiKey config = None \/ WardenConfig.apiKey config = Some "" ->
   constructor config = Throw (OtherErr (JSError.Error "API key is required"))) /\
  (forall key,
     WardenConfig.apiKey config = Some key -> key <> "" ->
     String.prefix "wd_" key = false ->
     constructor config =
       Throw (OtherErr (JSError.Error
         ("API key must start with " ++ JSON.dquote ++ "wd_" ++ JSON.dquote)))) /\
  (forall key,
     WardenConfig.apiKey config = Some key -> String.prefix "wd_" key = true ->
     exists c,
       constructor config = Normal c /\
       Config.apiKey c = key /\
       (WardenConfig.baseUrl config = None ->
        Config.baseUrl c = "https://api.iitranq.co.uk/api/v1") /\
       (WardenConfig.timeout config = None -> Config.timeout c = 10000) /\
       (WardenConfig.retries config = None -> Config.retries c = 3) /\
       (forall url, WardenConfig.baseUrl config = Some url -> url <> "" ->
                    Config.baseUrl c = url) /\
       (forall ms, WardenConfig.timeout config = Some (Int ms) -> ms <> 0 ->
                   Config.timeout c = ms) /\
       (forall n, WardenConfig.retries config = Some (Int n) -> n <> 0 ->
                  Config.retries c = n)) /\
  (forall c net call,
     constructor config = Normal c ->
     forall w, this_config w = c -> this_config (snd (invoke net call w)) = c).
Proof.
  split; [| split; [| split]].
  - unfold constructor. intros [-> | ->]; reflexivity.
  - intros key Hkey Hne Hprefix. unfold constructor. rewrite Hkey. cbn [truthy].
    apply String.eqb_neq in Hne. rewrite Hne, Hprefix. reflexivity.
  - intros key Hkey Hprefix. unfold constructor. rewrite Hkey. cbn [truthy].
    assert (Hne : (key =? "")%string = false).
    { destruct key; [discriminate | reflexivity]. }
    rewrite Hne, Hprefix. cbn [negb].
    eexists. split; [reflexivity |]. cbn.
    split; [reflexivity |].
    split; [intros ->; reflexivity |].
    split; [intros ->; reflexivity |].
    split; [intros ->; reflexivity |].
    split; [| split].
    + intros url -> Hurl. cbn. apply String.eqb_neq in Hurl. now rewrite Hurl.
    + intros ms -> Hms. cbn. apply Z.eqb_neq in Hms. now rewrite Hms.
    + intros n -> Hn. cbn. apply Z.eqb_neq in Hn. now rewrite Hn.
  - intros c net call _ w <-. apply invoke_frame.
Qed.

(** C9. An explicit [retries: 0] is replaced by the default 3 and an
    explicit [timeout: 0] by the default 10000; whatever the caller passes,
    the constructed client has neither a retry budget of 0 nor a timeout of
    0. *)
Theorem constructor_zero_is_defaulted config key :
  WardenConfig.apiKey config = Some key ->
  String.prefix "wd_" key = true ->
  exists c,
    constructor config = Normal c /\
    (WardenConfig.retries config = Some (Int 0) -> Config.retries c = 3) /\
    (WardenConfig.timeout config = Some (Int 0) -> Config.timeout c = 10000) /\
    Config.retries c <> 0 /\
    Config.timeout c <> 0.
Proof.
  intros Hkey Hprefix. unfold constructor. rewrite Hkey. cbn [truthy].
  assert (Hne : (key =? "")%string = false).
  { destruct key; [discriminate | reflexivity]. }
  rewrite Hne, Hprefix. cbn [negb].
  eexists. split; [reflexivity |]. cbn.
  split; [intros ->; reflexivity |].
  split; [intros ->; reflexivity |].
  split.
  - destruct (WardenConfig.retries config) as [[| n] |]; cbn; try discriminate.
    destruct (n =? 0) eqn:E; [discriminate | now apply Z.eqb_neq].
  - destruct (WardenConfig.timeout config) as [[| n] |]; cbn; try discriminate.
    destruct (n =? 0) eqn:E; [discriminate | now apply Z.eqb_neq].
Qed.

Lemma constructor_zero_is_defaulted_witness :
  exists c,
    constructor (WardenConfig.make (Some "wd_test") None (Some (Int 0)) (Some (Int 0)))
      = Normal c /\
    Config.retries c = 3 /\
    Config.timeout c = 10000.
Proof.
  destruct (constructor_zero_is_defaulted
              (WardenConfig.make (Some "wd_test") None (Some (Int 0)) (Some (Int 0)))
              "wd_test" eq_refl eq_refl)
    as (c & Heq & Hretries & Htimeout & _).
  exists c. split; [exact Heq |].
  split; [apply Hretries | apply Htimeout]; reflexivity.
Defined.

(* ===================================================================== *)
(** ** The lookup facade *)
(* ===================================================================== *)

(** C4. When the [makeRequest] call of a lookup throws a [WardenAPIError]
    [e] with status code 404, [checkServerById], [checkServerByName],
    [checkUserById] and [getServerInfo] return normally an object whose
    [error] is ["Server not found"] or ["User not found"] (the object of
    [checkServerById] has a [data] property too, set to [undefined], and so
    reads like the others), while [checkServers] throws [e], as [makeRequest]
    did.  When the status code of [e] is not 404, the four lookups throw [e]
    unchanged. *)
Theorem lookup_not_found net w w' (e : WardenAPIError.t) id name servers :
  let byId :=
    POST (JSON.stringify
            (JObj [("data", JObj [("type", JStr "id"); ("id", JStr id)])])) in
  let byName :=
    POST (JSON.stringify
            (JObj [("data", JObj [("type", JStr "name"); ("name", JStr name)])])) in
  let batch :=
    POST (JSON.stringify (JObj [("data", JObj [("servers", JArr servers)])])) in
  let failed (endpoint : string) (options : RequestOptions.t) :=
    makeRequest net endpoint options w = (Throw (WardenErr e), w') in
  (WardenAPIError.statusCode e = Some 404 ->
   (failed "/server" byId ->
    checkServerById net id w =
      (Normal (JObj [("error", JStr "Server not found"); ("data", JUndefined)]),
       w')) /\
   (failed "/server" byName ->
    checkServerByName net name w =
      (Normal (JObj [("error", JStr "Server not found")]), w')) /\
   (failed "/user" byId ->
    checkUserById net id w =
      (Normal (JObj [("error", JStr "User not found")]), w')) /\
   (failed ("/server/" ++ id) RequestOptions.empty ->
    getServerInfo net id w =
      (Normal (JObj [("error", JStr "Server not found")]), w')) /\
   (failed "/servers" batch ->
    checkServers net servers w = (Throw (WardenErr e), w')) /\
   (forall k,
      get (JObj [("error", JStr "Server not found"); ("data", JUndefined)]) k
      = get (JObj [("error", JStr "Server not found")]) k)) /\
  (WardenAPIError.statusCode e <> Some 404 ->
   (failed "/server" byId ->
    checkServerById net id w = (Throw (WardenErr e), w')) /\
   (failed "/server" byName ->
    checkServerByName net name w = (Throw (WardenErr e), w')) /\
   (failed "/user" byId ->
    checkUserById net id w = (Throw (WardenErr e), w')) /\
   (failed ("/server/" ++ id) RequestOptions.empty ->
    getServerInfo net id w = (Throw (WardenErr e), w')) /\
   (failed "/servers" batch ->
    checkServers net servers w = (Throw (WardenErr e), w'))).
Proof.
  intros byId byName batch failed. subst failed. cbv beta.
  unfold checkServerById, checkServerByName, checkUserById, getServerInfo,
    checkServers, tryCatch.
  fold byId byName batch.
  split.
  - intros H404.
    assert (Hnf : isNotFound (WardenErr e) = true)
      by (cbn; rewrite H404; reflexivity).
    split; [| split; [| split; [| split; [| split]]]];
      try (intros ->; rewrite Hnf; reflexivity).
    + intros ->. reflexivity.
    + intros k. unfold get. cbn. destruct (k =? "error")%string; [reflexivity |].
      destruct (k =? "data")%string; reflexivity.
  - intros Hother.
    assert (Hnf : isNotFound (WardenErr e) = false).
    { cbn. destruct (WardenAPIError.statusCode e) as [code |]; [| reflexivity].
      apply Z.eqb_neq. intros ->. now apply Hother. }
    split; [| split; [| split; [| split]]];
      try (intros ->; rewrite Hnf; reflexivity).
    intros ->. reflexivity.
Qed.

Lemma lookup_not_found_witness :
  checkServerById (Sample.always Sample.notFound) "1" (newWorld Sample.config)
  = (Normal (JObj [("error", JStr "Server not found"); ("data", JUndefined)]),
     snd (makeRequest (Sample.always Sample.notFound) "/server"
            (POST (JSON.stringify
                     (JObj [("data", JObj [("type", JStr "id"); ("id", JStr "1")])])))
            (newWorld Sample.config)))
  /\
  checkServers (Sample.always Sample.notFound) [JObj [("id", JStr "1")]]
    (newWorld Sample.config)
  = (Throw (WardenErr
       {| WardenAPIError.message := "No such server";
          WardenAPIError.statusCode := Some 404;
          WardenAPIError.responseData := JObj [("error", JStr "No such server")];
          WardenAPIError.rateLimit := None |}),
     snd (makeRequest (Sample.always Sample.notFound) "/servers"
            (POST (JSON.stringify
                     (JObj [("data",
                             JObj [("servers", JArr [JObj [("id", JStr "1")]])])])))
            (newWorld Sample.config))).
Proof.
  split.
  - destruct (lookup_not_found (Sample.always Sample.notFound)
                (newWorld Sample.config)
                (snd (makeRequest (Sample.always Sample.notFound) "/server"
                        (POST (JSON.stringify
                                 (JObj [("data",
                                         JObj [("type", JStr "id"); ("id", JStr "1")])])))
                        (newWorld Sample.config)))
                {| WardenAPIError.message := "No such server";
                   WardenAPIError.statusCode := Some 404;
                   WardenAPIError.responseData := JObj [("error", JStr "No such server")];
                   WardenAPIError.rateLimit := None |}
                "1" "" []) as [H _].
    destruct (H eq_refl) as (HbyId & _). apply HbyId. reflexivity.
  - destruct (lookup_not_found (Sample.always Sample.notFound)
                (newWorld Sample.config)
                (snd (makeRequest (Sample.always Sample.notFound) "/servers"
                        (POST (JSON.stringify
                                 (JObj [("data",
                                         JObj [("servers",
                                                JArr [JObj [("id", JStr "1")]])])])))
                        (newWorld Sample.config)))
                {| WardenAPIError.message := "No such server";
                   WardenAPIError.statusCode := Some 404;
                   WardenAPIError.responseData := JObj [("error", JStr "No such server")];
                   WardenAPIError.rateLimit := None |}
                "" "" [JObj [("id", JStr "1")]]) as [H _].
    destruct (H eq_refl) as (_ & _ & _ & _ & Hbatch & _). apply Hbatch. reflexivity.
Defined.

(* ===================================================================== *)
(** ** The flagged checks *)
(* ===================================================================== *)

Lemma optGet_get v k : optGet v k = get v k.
Proof. destruct v; reflexivity. Qed.

(** [makeRequest] returns objects only, and so do the lookups: the property
    reads of [isServerFlagged] and [isUserFlagged] cannot fail. *)
Lemma attempts_returns_object net req indices :
  forall lastError w v w',
    attempts net req indices lastError w = (Normal v, w') ->
    exists props, v = JObj props.
Proof.
  induction indices as [| attempt indices IH]; intros lastError w v w' H.
  - cbn in H. destruct lastError; discriminate.
  - rewrite attempts_cons in H.
    destruct (attemptBody net req attempt lastError w) as [[[le | v0] | e] w1] eqn:E;
      [now apply IH in H | | discriminate].
    injection H as <- <-.
    revert E. run.
    destruct (net req (fetches w)) as [e | r]; cbn.
    + destruct (attempt =? _); discriminate.
    + destruct (Response.ok r); cbn.
      * destruct (Response.json r); cbn.
        -- destruct (attempt =? _); discriminate.
        -- intros [= <- _]. eauto.
      * destruct (Response.json r); cbn -[WardenAPIError.new];
          destruct ((Response.status r =? 429) && (attempt <? _));
          cbn -[WardenAPIError.new]; try discriminate;
          match goal with
          | |- context [WardenAPIError.new ?m ?c ?d ?l] =>
              destruct (WardenAPIError.new m c d l)
          end; cbn; try discriminate;
          destruct (attempt =? _); discriminate.
Qed.

Lemma lookup_returns_object (m : M JSValue) soft w v w' :
  (forall v w', m w = (Normal v, w') -> exists props, v = JObj props) ->
  tryCatch m
    (fun error => if isNotFound error then ret (JObj soft) else throw error) w
    = (Normal v, w') ->
  exists props, v = JObj props.
Proof.
  intros Hm. unfold tryCatch.
  destruct (m w) as [[v0 | e] w0] eqn:E.
  - intros [= <- <-]. eapply Hm. reflexivity.
  - destruct (isNotFound e); cbn; [intros [= <- _]; eauto | discriminate].
Qed.

Lemma makeRequest_returns_object net endpoint options w v w' :
  makeRequest net endpoint options w = (Normal v, w') ->
  exists props, v = JObj props.
Proof.
  destruct (signalRange_dec (signalDelay (this_config w) options)) as [Hin | Hout].
  - rewrite makeRequest_in_range by assumption. apply attempts_returns_object.
  - rewrite makeRequest_out_of_range by assumption. discriminate.
Qed.

Lemma flagged_lookups_return_objects net id w v w' :
  getServerInfo net id w = (Normal v, w') \/
  checkUserById net id w = (Normal v, w') ->
  exists props, v = JObj props.
Proof.
  intros [H | H]; eapply lookup_returns_object in H; try exact H;
    intros v0 w0; apply makeRequest_returns_object.
Qed.

(** C8. [isServerFlagged] and [isUserFlagged] return, for the result
    [response] of [getServerInfo] and [checkUserById], [true] exactly when
    [response.error] is falsy (no error marker) and [response.id] is truthy
    (for a string: not empty), and [false] when [response.error] is truthy
    or [response.id] is falsy, in particular when it is absent.
    The not-found result of the lookups carries an error marker. *)
Theorem isFlagged_iff net id w response w' :
  let noError := negb (truthy (get response "error")) in
  let hasId := truthy (get response "id") in
  (getServerInfo net id w = (Normal response, w') ->
   exists flagged,
     isServerFlagged net id w = (Normal flagged, w') /\
     (flagged = true <-> noError = true /\ hasId = true) /\
     (noError = false \/ hasId = false -> flagged = false)) /\
  (checkUserById net id w = (Normal response, w') ->
   exists flagged,
     isUserFlagged net id w = (Normal flagged, w') /\
     (flagged = true <-> noError = true /\ hasId = true) /\
     (noError = false \/ hasId = false -> flagged = false)) /\
  (get response "error" = JUndefined -> noError = true) /\
  (forall s, get response "error" = JStr s -> s <> "" -> noError = false) /\
  (get response "id" = JUndefined -> hasId = false) /\
  (forall s, get response "id" = JStr s -> (hasId = true <-> s <> "")).
Proof.
  intros noError hasId.
  assert (Hflag : forall flagged,
            flagged = noError && hasId ->
            (flagged = true <-> noError = true /\ hasId = true) /\
            (noError = false \/ hasId = false -> flagged = false)).
  { intros flagged ->. split; [apply andb_true_iff |].
    intros [-> | ->]; [reflexivity | apply andb_false_r]. }
  split; [| split; [| split; [| split; [| split]]]].
  - intros H. unfold isServerFlagged, bind. rewrite H.
    eexists. split; [reflexivity |]. apply Hflag.
    rewrite optGet_get. reflexivity.
  - intros H. unfold isUserFlagged, bind. rewrite H.
    eexists. split; [reflexivity |]. apply Hflag.
    rewrite optGet_get. reflexivity.
  - unfold noError. intros ->. reflexivity.
  - unfold noError. intros s -> Hs. cbn.
    apply String.eqb_neq in Hs. rewrite Hs. reflexivity.
  - unfold hasId. intros ->. reflexivity.
  - unfold hasId. intros s ->. cbn. split.
    + intros H Hs. subst s. discriminate.
    + intros Hs. apply String.eqb_neq in Hs. rewrite Hs. reflexivity.
Qed.

Lemma isFlagged_iff_witness :
  isServerFlagged (Sample.always Sample.found) "1" (newWorld Sample.config)
    = (Normal true, mkWorld Sample.config 1 [Fetch Sample.req])
  /\
  isUserFlagged (Sample.always Sample.notFound) "1" (newWorld Sample.config)
    = (Normal false,
       snd (checkUserById (Sample.always Sample.notFound) "1"
              (newWorld Sample.config))).
Proof.
  split.
  - destruct (isFlagged_iff (Sample.always Sample.found) "1"
                (newWorld Sample.config)
                (JObj [("id", JStr "1"); ("name", JStr "X"); ("type", JStr "CHEATING");
                       ("rateLimit",
                        JObj [("limit", JNum (Int 100)); ("remaining", JNum (Int 99));
                              ("reset", JNum (Int 1640995200));
                              ("retryAfter", JUndefined)])])
                (mkWorld Sample.config 1 [Fetch Sample.req]))
      as ((flagged & Heq & Hiff & _) & _); [reflexivity |].
    rewrite Heq. f_equal. f_equal. apply Hiff. split; reflexivity.
  - destruct (isFlagged_iff (Sample.always Sample.notFound) "1"
                (newWorld Sample.config)
                (JObj [("error", JStr "User not found")])
                (snd (checkUserById (Sample.always Sample.notFound) "1"
                        (newWorld Sample.config))))
      as (_ & (flagged & Heq & _ & Hfalse) & _); [reflexivity |].
    rewrite Heq. f_equal. f_equal. apply Hfalse. left. reflexivity.
Defined.

(* ===================================================================== *)
(** ** The whole attempt loop, read off the answers of the network *)
(* ===================================================================== *)

Lemma retried_last retries answer : retried retries retries answer = false.
Proof.
  unfold retried. rewrite Z.eqb_refl, Z.ltb_irrefl.
  destruct answer as [e | r]; [reflexivity |].
  destruct (Response.ok r); [destruct (Response.json r); reflexivity |].
  rewrite andb_false_r. destruct (toString (errorMessage r)); reflexivity.
Qed.

Lemma attemptBody_reading net req attempt lastError w :
  let answer := net req (fetches w) in
  let retries := Config.retries (this_config w) in
  if retried retries attempt answer
  then exists lastError',
         attemptBody net req attempt lastError w =
           (Normal (Continue lastError'),
            record (Delay (retryDelay retries attempt answer)) (fetched req w))
  else attemptBody net req attempt lastError w =
         (match settle answer with
          | Normal v => Normal (Return v)
          | Throw e => Throw e
          end, fetched req w).
Proof.
  intros answer retries. subst answer retries. unfold retried, retryDelay, settle.
  destruct (net req (fetches w)) as [e | r] eqn:Hnet.
  - rewrite (attemptBody_rejected net req attempt lastError w e Hnet).
    destruct (attempt =? _); cbn; eauto.
  - destruct (Response.ok r) eqn:Hok.
    + destruct (Response.json r) as [e | data] eqn:Hjson.
      * rewrite (attemptBody_undecodable net req attempt lastError w r e Hnet Hok Hjson).
        destruct (attempt =? _); cbn; eauto.
      * apply (attemptBody_success net req attempt lastError w r data Hnet Hok Hjson).
    + destruct ((Response.status r =? 429)
                && (attempt <? Config.retries (this_config w))) eqn:Hcond.
      * apply andb_true_iff in Hcond as [Hs Hl].
        apply Z.eqb_eq in Hs. apply Z.ltb_lt in Hl.
        rewrite (attemptBody_rate_limited net req attempt lastError w r Hnet Hok Hs Hl).
        eauto.
      * rewrite (attemptBody_failed net req attempt lastError w r Hnet Hok Hcond).
        unfold WardenAPIError.new.
        destruct (toString (errorMessage r)); [reflexivity |].
        destruct (attempt =? _); cbn; eauto.
Qed.

Lemma traceOf_step req retries first answer k :
  traceOf req retries first answer (S k) =
    (Fetch req :: Delay (retryDelay retries (Z.of_nat first) (answer 0%nat))
     :: traceOf req retries (S first) (fun j => answer (S j)) k)%list.
Proof.
  unfold traceOf. rewrite <- cons_seq, <- seq_shift. cbn [flat_map].
  rewrite Nat.add_0_r. cbn [app]. do 2 f_equal.
  f_equal. rewrite flat_map_concat_map, map_map, <- flat_map_concat_map.
  apply flat_map_ext. intros j. do 4 f_equal. lia.
Qed.

(** The loop from the index [first], with [n] more indices after it up to
    the budget: some attempt [first + k] is the first that is not retried,
    and it settles the call. *)
Lemma attempts_trace net req :
  forall (n first : nat) lastError w,
    Z.of_nat (first + n) = Config.retries (this_config w) ->
    let retries := Config.retries (this_config w) in
    let answer j := net req (fetches w + j)%nat in
    exists k,
      (k <= n)%nat /\
      (forall j, (j < k)%nat ->
         retried retries (Z.of_nat (first + j)) (answer j) = true) /\
      retried retries (Z.of_nat (first + k)) (answer k) = false /\
      attempts net req (map Z.of_nat (seq first (S n))) lastError w =
        (settle (answer k),
         mkWorld (this_config w) (fetches w + S k)
           (log w ++ traceOf req retries first answer k)).
Proof.
  induction n as [| n IH]; intros first lastError w Hbudget retries answer.
  - exists 0%nat. cbn [seq map]. rewrite attempts_cons.
    pose proof (attemptBody_reading net req (Z.of_nat first) lastError w) as H.
    cbv zeta in H.
    assert (Hlast : retried retries (Z.of_nat first) (net req (fetches w)) = false).
    { replace (Z.of_nat first) with retries by (unfold retries; lia).
      apply retried_last. }
    fold retries in H. rewrite Hlast in H. rewrite H.
    subst answer. cbv beta. rewrite !Nat.add_0_r.
    split; [lia |]. split; [intros j Hj; lia |]. split; [exact Hlast |].
    unfold traceOf, fetched. cbn [seq flat_map app].
    replace (fetches w + 1)%nat with (S (fetches w)) by lia.
    destruct (settle (net req (fetches w))); reflexivity.
  - cbn [seq map]. rewrite attempts_cons.
    pose proof (attemptBody_reading net req (Z.of_nat first) lastError w) as H.
    cbv zeta in H. fold retries in H.
    destruct (retried retries (Z.of_nat first) (net req (fetches w))) eqn:Hretried.
    + destruct H as [lastError' H]. rewrite H.
      set (w1 := record (Delay (retryDelay retries (Z.of_nat first)
                                  (net req (fetches w))))
                   (fetched req w)).
      destruct (IH (S first) lastError' w1) as (k & Hk & Hbefore & Hat & Heq).
      { cbn. lia. }
      cbn [w1 record fetched this_config fetches] in Hbefore, Hat.
      fold retries in Hbefore, Hat.
      exists (S k). subst answer. cbv beta.
      split; [lia |]. split; [| split].
      * intros [| j] Hj.
        -- rewrite !Nat.add_0_r. exact Hretried.
        -- specialize (Hbefore j ltac:(lia)).
           replace (first + S j)%nat with (S first + j)%nat by lia.
           replace (fetches w + S j)%nat with (S (fetches w) + j)%nat by lia.
           exact Hbefore.
      * replace (first + S k)%nat with (S first + k)%nat by lia.
        replace (fetches w + S k)%nat with (S (fetches w) + k)%nat by lia.
        exact Hat.
      * cbv beta iota. cbn [seq map] in Heq. rewrite Heq.
        cbn [w1 record fetched this_config fetches log]. fold retries.
        replace (fetches w + S k)%nat with (S (fetches w) + k)%nat by lia.
        f_equal. f_equal.
        -- lia.
        -- rewrite traceOf_step, Nat.add_0_r, <- !app_assoc. cbn [app].
           do 3 f_equal. unfold traceOf. f_equal. apply flat_map_ext.
           intros j. do 4 f_equal. f_equal. lia.
    + exists 0%nat. rewrite H. subst answer. cbv beta. rewrite !Nat.add_0_r.
      split; [lia |]. split; [intros j Hj; lia |]. split; [exact Hretried |].
      unfold traceOf, fetched. cbn [seq flat_map app].
      replace (fetches w + 1)%nat with (S (fetches w)) by lia.
      destruct (settle (net req (fetches w))); reflexivity.
Qed.

(** [makeRequest] with a timeout in range and a budget of 0 or more. *)
Lemma makeRequest_trace net endpoint options w :
  let config := this_config w in
  let retries := Config.retries config in
  let req := requestOptions config endpoint options in
  let answer j := net req (fetches w + j)%nat in
  signalRange (signalDelay config options) ->
  0 <= retries ->
  exists k,
    (Z.of_nat k <= retries) /\
    (forall j, (j < k)%nat -> retried retries (Z.of_nat j) (answer j) = true) /\
    retried retries (Z.of_nat k) (answer k) = false /\
    makeRequest net endpoint options w =
      (settle (answer k),
       mkWorld config (fetches w + S k)
         (log w ++ traceOf req retries 0 answer k)).
Proof.
  intros config retries req answer Hrange Hbudget.
  destruct (attempts_trace net req (Z.to_nat retries) 0 None w)
    as (k & Hk & Hbefore & Hat & Heq).
  { unfold retries, config in *. lia. }
  exists k. cbn [Nat.add] in *.
  split; [unfold retries, config in *; lia |].
  split; [exact Hbefore |]. split; [exact Hat |].
  rewrite makeRequest_in_range by assumption. fold config req retries.
  unfold attemptIndices.
  replace (Z.to_nat (retries + 1)) with (S (Z.to_nat retries))
    by (unfold retries, config in *; lia).
  exact Heq.
Qed.

(** The three ways a call of [makeRequest] can go. *)
Lemma makeRequest_cases net endpoint options w :
  let config := this_config w in
  let retries := Config.retries config in
  let req := requestOptions config endpoint options in
  let answer j := net req (fetches w + j)%nat in
  (~ signalRange (signalDelay config options) /\
   makeRequest net endpoint options w =
     (Throw (SignalRangeErr (signalDelay config options)), w)) \/
  (signalRange (signalDelay config options) /\ retries < 0 /\
   makeRequest net endpoint options w = (Throw ThrownUndefined, w)) \/
  (signalRange (signalDelay config options) /\ 0 <= retries /\
   exists k,
     (Z.of_nat k <= retries) /\
     (forall j, (j < k)%nat -> retried retries (Z.of_nat j) (answer j) = true) /\
     retried retries (Z.of_nat k) (answer k) = false /\
     makeRequest net endpoint options w =
       (settle (answer k),
        mkWorld config (fetches w + S k)
          (log w ++ traceOf req retries 0 answer k))).
Proof.
  intros config retries req answer.
  destruct (signalRange_dec (signalDelay config options)) as [Hin | Hout].
  - right. destruct (Z.lt_ge_cases retries 0) as [Hneg | Hpos].
    + left. split; [exact Hin |]. split; [exact Hneg |].
      now apply makeRequest_negative_budget.
    + right. split; [exact Hin |]. split; [exact Hpos |].
      now apply makeRequest_trace.
  - left. split; [exact Hout |]. now apply makeRequest_out_of_range.
Qed.

Lemma settle_cases answer :
  (exists v, settle answer = Normal v) \/
  (exists e, settle answer = Throw (WardenErr e)) \/
  (exists e, settle answer = Throw (OtherErr e)) \/
  settle answer = Throw ConversionErr.
Proof.
  unfold settle. destruct answer as [e | r]; [eauto |].
  destruct (Response.ok r); [destruct (Response.json r); eauto |].
  destruct (WardenAPIError.new _ _ _ _); eauto.
Qed.

Lemma traceOf_delays req retries first answer k :
  traceOf req retries first answer k =
    (flat_map (fun d => [Fetch req; Delay d])
       (map (fun j => retryDelay retries (Z.of_nat (first + j)) (answer j))
            (seq 0 k))
     ++ [Fetch req])%list.
Proof.
  unfold traceOf. f_equal.
  rewrite (flat_map_concat_map (fun d => [Fetch req; Delay d])), map_map.
  now rewrite <- flat_map_concat_map.
Qed.

(* ===================================================================== *)
(** ** Further properties of [makeRequest] *)
(* ===================================================================== *)

(** X1. With a timeout that [AbortSignal.timeout] accepts and a retry
    budget of 0 or more, one call of [makeRequest] makes at least one and at
    most [retries + 1] fetch calls, all of them with the same request; it
    sleeps exactly once between two consecutive fetches, never before the
    first or after the last one, and it leaves [this.config] as it was. *)
Theorem makeRequest_effects net endpoint options w :
  let config := this_config w in
  let req := requestOptions config endpoint options in
  let w' := snd (makeRequest net endpoint options w) in
  signalRange (signalDelay config options) ->
  0 <= Config.retries config ->
  exists delays : list number,
    Z.of_nat (List.length delays) <= Config.retries config /\
    fetches w' = (fetches w + List.length delays + 1)%nat /\
    log w' = (log w ++ flat_map (fun d => [Fetch req; Delay d]) delays
                    ++ [Fetch req])%list /\
    this_config w' = config.
Proof.
  intros config req w' Hrange Hbudget. subst w'.
  destruct (makeRequest_trace net endpoint options w Hrange Hbudget)
    as (k & Hk & _ & _ & Heq).
  fold config req in Heq. rewrite Heq. cbn [snd fetches log this_config].
  rewrite traceOf_delays.
  eexists. rewrite length_map, length_seq.
  split; [exact Hk |]. split; [lia |]. split; reflexivity.
Qed.

Lemma makeRequest_effects_witness :
  exists delays : list number,
    Z.of_nat (List.length delays) <= 3 /\
    fetches (snd (makeRequest (Sample.firstThen Sample.tooMany Sample.found)
                    "/server/1" RequestOptions.empty (newWorld Sample.config)))
      = (0 + List.length delays + 1)%nat /\
    log (snd (makeRequest (Sample.firstThen Sample.tooMany Sample.found)
                "/server/1" RequestOptions.empty (newWorld Sample.config)))
      = ([] ++ flat_map (fun d => [Fetch Sample.req; Delay d]) delays
            ++ [Fetch Sample.req])%list /\
    this_config (snd (makeRequest (Sample.firstThen Sample.tooMany Sample.found)
                        "/server/1" RequestOptions.empty (newWorld Sample.config)))
      = Sample.config.
Proof.
  apply (makeRequest_effects (Sample.firstThen Sample.tooMany Sample.found)
           "/server/1" RequestOptions.empty (newWorld Sample.config)).
  - in_range.
  - cbn. lia.
Defined.

(** X2. [makeRequest] returns normally only on an ok response with a
    decodable body: the answer to its last fetch is such a response, and the
    value returned is [{ ...data, rateLimit }] built from it. *)
Theorem makeRequest_returns_only_ok net endpoint options w v w' :
  let req := requestOptions (this_config w) endpoint options in
  makeRequest net endpoint options w = (Normal v, w') ->
  exists r data,
    (fetches w < fetches w')%nat /\
    net req (pred (fetches w')) = Resolved r /\
    Response.ok r = true /\
    Response.json r = inr data /\
    v = JObj (assign "rateLimit" (RateLimitInfo.optValue (extractRateLimit r))
                (ownProps data)).
Proof.
  intros req Hrun.
  destruct (makeRequest_cases net endpoint options w)
    as [[_ Heq] | [(_ & _ & Heq) | (_ & _ & k & _ & _ & _ & Heq)]];
    rewrite Heq in Hrun; try discriminate.
  injection Hrun as Hsettle <-. cbn [fetches].
  replace (pred (fetches w + S k)) with (fetches w + k)%nat by lia.
  fold req in Hsettle. unfold settle in Hsettle.
  destruct (net req (fetches w + k)%nat) as [e | r] eqn:Hnet; [discriminate |].
  destruct (Response.ok r) eqn:Hok.
  - destruct (Response.json r) as [e | data] eqn:Hjson; [discriminate |].
    injection Hsettle as <-.
    exists r, data. split; [lia |]. auto.
  - destruct (WardenAPIError.new _ _ _ _); discriminate.
Qed.

Lemma makeRequest_returns_only_ok_witness :
  exists r,
    Sample.firstThen Sample.tooMany Sample.found Sample.req 1%nat = Resolved r /\
    Response.ok r = true.
Proof.
  destruct (makeRequest_returns_only_ok
              (Sample.firstThen Sample.tooMany Sample.found) "/server/1"
              RequestOptions.empty (newWorld Sample.config)
              (JObj [("id", JStr "1"); ("name", JStr "X"); ("type", JStr "CHEATING");
                     ("rateLimit",
                      JObj [("limit", JNum (Int 100)); ("remaining", JNum (Int 99));
                            ("reset", JNum (Int 1640995200));
                            ("retryAfter", JUndefined)])])
              (mkWorld Sample.config 2
                 [Fetch Sample.req; Delay (Int 7000); Fetch Sample.req])
              eq_refl)
    as (r & data & _ & Hnet & Hok & _).
  exists r. split; [exact Hnet | exact Hok].
Defined.



(** X4. An error that is not a [WardenAPIError] leaves [makeRequest] in one
    of these ways only.  Before any fetch: the RangeError of
    [AbortSignal.timeout] for a timeout outside its range, or [undefined]
    for a negative retry budget.  After exactly [retries + 1] fetches: the
    rejection of the last fetch, the rejection of [response.json()] on the
    last, ok, response, or the TypeError of the conversion of the error
    message of the last response, which is not ok. *)
Theorem makeRequest_other_error_origin net endpoint options w error w' :
  let config := this_config w in
  let req := requestOptions config endpoint options in
  let last := net req (pred (fetches w')) in
  makeRequest net endpoint options w = (Throw error, w') ->
  instanceofWardenAPIError error = false ->
  (error = SignalRangeErr (signalDelay config options) /\
   ~ signalRange (signalDelay config options) /\ w' = w) \/
  (error = ThrownUndefined /\ Config.retries config < 0 /\ w' = w) \/
  (Z.of_nat (fetches w') = Z.of_nat (fetches w) + Config.retries config + 1 /\
   ((exists e, last = Rejected e /\ error = OtherErr e) \/
    (exists r e, last = Resolved r /\ Response.ok r = true /\
                 Response.json r = inl e /\ error = OtherErr e) \/
    (exists r, last = Resolved r /\ Response.ok r = false /\
               toString (errorMessage r) = None /\ error = ConversionErr))).
Proof.
  intros config req last Hrun Hother. subst last.
  destruct (makeRequest_cases net endpoint options w)
    as [[Hout Heq] | [(_ & Hneg & Heq) | (_ & Hbudget & k & Hk & _ & Hat & Heq)]];
    rewrite Heq in Hrun.
  - injection Hrun as <- <-. left. auto.
  - injection Hrun as <- <-. right. left. auto.
  - right. right. injection Hrun as Hsettle <-. cbn [fetches].
    replace (pred (fetches w + S k)) with (fetches w + k)%nat by lia.
    fold config req in Hsettle, Hat. unfold settle in Hsettle.
    unfold retried in Hat.
    destruct (net req (fetches w + k)%nat) as [e0 | r] eqn:Hnet.
    + injection Hsettle as <-. apply negb_false_iff, Z.eqb_eq in Hat.
      split; [lia |]. left. eauto.
    + destruct (Response.ok r) eqn:Hok.
      * destruct (Response.json r) as [e0 | data] eqn:Hjson; [| discriminate].
        injection Hsettle as <-. apply negb_false_iff, Z.eqb_eq in Hat.
        split; [lia |]. right. left. exists r, e0. auto.
      * unfold WardenAPIError.new in Hsettle.
        destruct (toString (errorMessage r)) as [message |] eqn:Hmessage.
        -- injection Hsettle as <-. discriminate.
        -- injection Hsettle as <-.
           destruct ((Response.status r =? 429)
                     && (Z.of_nat k <? Config.retries config)); [discriminate |].
           apply negb_false_iff, Z.eqb_eq in Hat.
           split; [lia |]. right. right. exists r. auto.
Qed.

Lemma makeRequest_other_error_origin_witness :
  Z.of_nat 4 = Z.of_nat 0 + 3 + 1 /\
  exists r,
    Sample.always Sample.oddError Sample.req 3%nat = Resolved r /\
    Response.ok r = false /\
    toString (errorMessage r) = None.
Proof.
  destruct (makeRequest_other_error_origin
              (Sample.always Sample.oddError) "/server/1"
              RequestOptions.empty (newWorld Sample.config) ConversionErr
              (mkWorld Sample.config 4
                 [Fetch Sample.req; Delay (Int 1000);
                  Fetch Sample.req; Delay (Int 2000);
                  Fetch Sample.req; Delay (Int 4000);
                  Fetch Sample.req])
              eq_refl eq_refl)
    as [(H & _) | [(H & _) | (Hcount & [(e & _ & H) | [(r & e & _ & _ & _ & H)
                                                      | (r & Hnet & Hok & Hmessage & _)]])]];
    try discriminate.
  split; [exact Hcount |]. exists r. auto.
Defined.

(** X5. [makeRequest] throws without having made a fetch in two cases
    only.  It throws the RangeError of [AbortSignal.timeout] exactly when the
    timeout is outside 0 .. 4294967295.  It throws [undefined], the value of
    the unassigned [lastError], exactly when the timeout is in that range and
    the retry budget is negative.  In every other case it makes a fetch. *)
Theorem makeRequest_throws_undefined_iff net endpoint options w :
  let config := this_config w in
  let run := makeRequest net endpoint options w in
  ((exists ms, fst run = Throw (SignalRangeErr ms))
   <-> ~ signalRange (signalDelay config options)) /\
  (fst run = Throw ThrownUndefined
   <-> signalRange (signalDelay config options) /\ Config.retries config < 0) /\
  (fetches (snd run) = fetches w
   <-> ~ signalRange (signalDelay config options) \/ Config.retries config < 0) /\
  (fetches (snd run) = fetches w -> snd run = w).
Proof.
  intros config run. subst run.
  destruct (makeRequest_cases net endpoint options w)
    as [[Hout Heq] | [(Hin & Hneg & Heq) | (Hin & Hbudget & k & _ & _ & _ & Heq)]];
    rewrite Heq; cbn [fst snd fetches]; fold config in Hout || fold config in Hin.
  - split; [| split; [| split]].
    + split; [auto | eauto].
    + split; [discriminate | intros [H _]; contradiction].
    + split; auto.
    + reflexivity.
  - fold config in Hneg. split; [| split; [| split]].
    + split; [intros [ms H]; discriminate | contradiction].
    + split; auto.
    + split; auto.
    + reflexivity.
  - fold config in Hbudget.
    destruct (settle_cases (net (requestOptions config endpoint options)
                              (fetches w + k)%nat))
      as [[v H] | [[e H] | [[e H] | H]]]; fold config; rewrite H;
      (split; [| split; [| split]]);
      try (split; [intros [ms H']; discriminate | contradiction]);
      try (split; [discriminate | lia]);
      try (split; [lia | intros [H' | H']; [contradiction | lia]]);
      lia.
Qed.

(** X6. A negative [retries] passes the constructor and is stored as given;
    on such a client no public method sends a request: it throws at once,
    [undefined] when the stored timeout is one that [AbortSignal.timeout]
    accepts and its RangeError otherwise. *)
Theorem negative_retries_sends_nothing config key n :
  WardenConfig.apiKey config = Some key ->
  String.prefix "wd_" key = true ->
  WardenConfig.retries config = Some (Int n) ->
  n < 0 ->
  exists c,
    constructor config = Normal c /\
    Config.retries c = n /\
    (forall net call w,
       this_config w = c ->
       invoke net call w =
         (Throw (if signalRange_dec (Config.timeout c) then ThrownUndefined
                 else SignalRangeErr (Config.timeout c)), w)).
Proof.
  intros Hkey Hprefix Hretries Hn. unfold constructor. rewrite Hkey. cbn [truthy].
  assert (Hne : (key =? "")%string = false).
  { destruct key; [discriminate | reflexivity]. }
  rewrite Hne, Hprefix, Hretries. cbn [negb or_num].
  replace (n =? 0) with false by (symmetry; apply Z.eqb_neq; lia).
  eexists. split; [reflexivity |]. split; [reflexivity |].
  cbn [Config.timeout].
  set (c := Config.make _ _ _ _). fold c.
  intros net call w Hw.
  assert (Hrun : forall endpoint options,
            RequestOptions.timeout options = None ->
            makeRequest net endpoint options w =
              (Throw (if signalRange_dec (Config.timeout c) then ThrownUndefined
                      else SignalRangeErr (Config.timeout c)), w)).
  { intros endpoint options Hnone.
    assert (Hdelay : signalDelay (this_config w) options = Config.timeout c).
    { unfold signalDelay. rewrite Hnone, Hw. reflexivity. }
    destruct (signalRange_dec (Config.timeout c)) as [Hin | Hout].
    - apply makeRequest_negative_budget; [now rewrite Hdelay |].
      rewrite Hw. exact Hn.
    - rewrite makeRequest_out_of_range by now rewrite Hdelay.
      now rewrite Hdelay. }
  set (error := if signalRange_dec (Config.timeout c) then ThrownUndefined
                else SignalRangeErr (Config.timeout c)) in *.
  assert (Hnf : isNotFound error = false).
  { subst error. destruct (signalRange_dec (Config.timeout c)); reflexivity. }
  destruct call; cbn [invoke];
    unfold isServerFlagged, isUserFlagged, bind, checkServerById,
      checkServerByName, checkServers, checkUserById, getServerInfo, tryCatch;
    rewrite Hrun by reflexivity; rewrite ?Hnf; reflexivity.
Qed.

Lemma negative_retries_sends_nothing_witness :
  exists c,
    constructor (WardenConfig.make (Some "wd_test") None None (Some (Int (-1))))
      = Normal c /\
    Config.retries c = -1 /\
    (forall net call w,
       this_config w = c ->
       invoke net call w =
         (Throw (if signalRange_dec (Config.timeout c) then ThrownUndefined
                 else SignalRangeErr (Config.timeout c)), w)).
Proof.
  apply (negative_retries_sends_nothing
           (WardenConfig.make (Some "wd_test") None None (Some (Int (-1))))
           "wd_test" (-1)); [reflexivity | reflexivity | reflexivity | lia].
Defined.

(** X7. When every attempt is answered with status 429, [makeRequest] makes
    [retries + 1] fetches, sleeps after each but the last for the time its
    Retry-After header gives (1000 ms without one), and then, when the error
    message of the last response converts to the string [message], throws
    the [WardenAPIError] with that message built from the last response.
    The statement is for a timeout that [AbortSignal.timeout] accepts and a
    message whose numbers are those of the model. *)
Theorem makeRequest_always_rate_limited
    net endpoint options w (r : nat -> Response.t) message :
  let config := this_config w in
  let req := requestOptions config endpoint options in
  let n := Z.to_nat (Config.retries config) in
  signalRange (signalDelay config options) ->
  0 <= Config.retries config ->
  (forall i, (i <= n)%nat ->
     net req (fetches w + i)%nat = Resolved (r i) /\ Response.status (r i) = 429) ->
  toString (errorMessage (r n)) = Some message ->
  safe (errorMessage (r n)) = true ->
  makeRequest net endpoint options w =
    (Throw (WardenErr
       {| WardenAPIError.message := message;
          WardenAPIError.statusCode := Some 429;
          WardenAPIError.responseData := safeBody (r n);
          WardenAPIError.rateLimit := extractRateLimit (r n) |}),
     mkWorld config (fetches w + (n + 1))
       (log w ++
        flat_map (fun i =>
                    [Fetch req;
                     Delay (mul (parseInt (or_str (Headers.get "Retry-After"
                                                     (Response.headers (r i))) "1"))
                                (Int 1000))])
                 (seq 0 n)
        ++ [Fetch req])).
Proof.
  intros config req n Hrange Hbudget Hnet Hmessage _.
  destruct (makeRequest_trace net endpoint options w Hrange Hbudget)
    as (k & Hk & _ & Hat & Heq).
  fold config req in Hk, Hat, Heq.
  assert (Hkn : k = n).
  { destruct (Hnet k ltac:(unfold n; lia)) as [Hans Hstatus].
    rewrite Hans in Hat. unfold retried in Hat.
    rewrite (ok_429 _ Hstatus), Hstatus in Hat. cbn [Z.eqb Pos.eqb andb] in Hat.
    destruct (Z.of_nat k <? Config.retries config) eqn:Hlt; [discriminate |].
    apply Z.ltb_ge in Hlt. unfold n. lia. }
  subst k. rewrite Heq.
  destruct (Hnet n (le_n n)) as [Hans Hstatus].
  rewrite Hans. unfold settle, WardenAPIError.new.
  rewrite (ok_429 _ Hstatus), Hmessage, Hstatus.
  f_equal. f_equal; [lia |]. f_equal. unfold traceOf. f_equal.
  rewrite !flat_map_concat_map. f_equal. apply map_ext_in.
  intros i Hi. apply in_seq in Hi.
  destruct (Hnet i ltac:(lia)) as [Hansi Hstatusi].
  rewrite Hansi. unfold retryDelay. rewrite (ok_429 _ Hstatusi), Hstatusi.
  replace (Z.of_nat (0 + i) <? Config.retries config) with true
    by (symmetry; apply Z.ltb_lt; unfold n in *; lia).
  reflexivity.
Qed.

Lemma makeRequest_always_rate_limited_witness :
  makeRequest (Sample.always Sample.tooManyBriefly) "/server/1"
    RequestOptions.empty (newWorld Sample.config)
  = (Throw (WardenErr
       {| WardenAPIError.message := "Rate limit exceeded";
          WardenAPIError.statusCode := Some 429;
          WardenAPIError.responseData := JObj [("error", JStr "Rate limit exceeded")];
          WardenAPIError.rateLimit := None |}),
     mkWorld Sample.config 4
       [Fetch Sample.req; Delay (Int 1000);
        Fetch Sample.req; Delay (Int 1000);
        Fetch Sample.req; Delay (Int 1000);
        Fetch Sample.req]).
Proof.
  apply (makeRequest_always_rate_limited (Sample.always Sample.tooManyBriefly)
           "/server/1" RequestOptions.empty (newWorld Sample.config)
           (fun _ => Sample.tooManyBriefly) "Rate limit exceeded").
  - in_range.
  - cbn. lia.
  - intros i _. split; reflexivity.
  - reflexivity.
  - reflexivity.
Defined.

(** X8. When the loop has reached the attempt [attempt] and the fetch there
    is rejected with [e]: with attempts left the executor sleeps
    [2^attempt] seconds, where [attempt] counts every earlier attempt, the
    rate-limited ones too, and goes on with the attempt [attempt + 1]; on the
    last attempt it throws [e] itself.  The statement is for a call whose
    timeout [AbortSignal.timeout] accepts. *)
Theorem makeRequest_rejected_at
    net endpoint options w attempt lastError w1 e :
  let config := this_config w in
  let req := requestOptions config endpoint options in
  signalRange (signalDelay config options) ->
  0 <= attempt <= Config.retries config ->
  reaches net req attempt w = Some (lastError, w1) ->
  net req (fetches w1) = Rejected e ->
  (attempt < Config.retries config ->
   makeRequest net endpoint options w =
     attempts net req
       ((attempt + 1) :: indicesAfter (attempt + 1) (Config.retries config))
       (Some (OtherErr e))
       (record (Delay (Int (2 ^ attempt * 1000))) (fetched req w1))) /\
  (attempt = Config.retries config ->
   makeRequest net endpoint options w = (Throw (OtherErr e), fetched req w1)).
Proof.
  intros config req Hrange Ha Hreach Hnet.
  destruct (makeRequest_at net endpoint options w attempt lastError w1
              Hrange Ha Hreach)
    as (Hc & _ & Heq).
  fold config req in Heq. rewrite Heq, attempts_cons. clear Heq.
  rewrite (attemptBody_rejected net req attempt lastError w1 e Hnet).
  rewrite Hc. fold config.
  split.
  - intros Hlt.
    replace (attempt =? Config.retries config) with false
      by (symmetry; apply Z.eqb_neq; lia).
    rewrite indicesAfter_next by lia. reflexivity.
  - intros ->. rewrite Z.eqb_refl. reflexivity.
Qed.

Lemma makeRequest_rejected_at_witness :
  makeRequest
    (Sample.script [Resolved Sample.tooMany; Rejected Sample.fetchFailed]
                   (Resolved Sample.found))
    "/server/1" RequestOptions.empty (newWorld Sample.config)
  = (Normal (JObj [("id", JStr "1"); ("name", JStr "X"); ("type", JStr "CHEATING");
                   ("rateLimit",
                    JObj [("limit", JNum (Int 100)); ("remaining", JNum (Int 99));
                          ("reset", JNum (Int 1640995200));
                          ("retryAfter", JUndefined)])]),
     mkWorld Sample.config 3
       [Fetch Sample.req; Delay (Int 7000);
        Fetch Sample.req; Delay (Int 2000);
        Fetch Sample.req]).
Proof.
  destruct (makeRequest_rejected_at
              (Sample.script [Resolved Sample.tooMany; Rejected Sample.fetchFailed]
                             (Resolved Sample.found))
              "/server/1" RequestOptions.empty (newWorld Sample.config) 1 None
              (mkWorld Sample.config 1 [Fetch Sample.req; Delay (Int 7000)])
              Sample.fetchFailed)
    as [H _].
  - in_range.
  - cbn. lia.
  - reflexivity.
  - reflexivity.
  - rewrite H by (cbn; lia). reflexivity.
Defined.

(* ===================================================================== *)
(** ** The request that is sent *)
(* ===================================================================== *)







Lemma tryCatch_world (m : M JSValue) (soft : JSValue) w :
  snd (tryCatch m
         (fun error => if isNotFound error then ret soft else throw error) w)
    = snd (m w).
Proof.
  unfold tryCatch. destruct (m w) as [[v | e] w']; [reflexivity |].
  destruct (isNotFound e); reflexivity.
Qed.

(** The world after a public call is the one after its [makeRequest]. *)
Lemma invoke_world net call w :
  snd (invoke net call w) =
    snd (match call with
         | CheckServerById serverId =>
             makeRequest net "/server"
               (POST (JSON.stringify
                  (JObj [("data", JObj [("type", JStr "id"); ("id", JStr serverId)])])))
         | CheckServerByName serverName =>
             makeRequest net "/server"
               (POST (JSON.stringify
                  (JObj [("data", JObj [("type", JStr "name");
                                        ("name", JStr serverName)])])))
         | CheckServers servers =>
             makeRequest net "/servers"
               (POST (JSON.stringify
                  (JObj [("data", JObj [("servers", JArr servers)])])))
         | CheckUserById userId | IsUserFlagged userId =>
             makeRequest net "/user"
               (POST (JSON.stringify
                  (JObj [("data", JObj [("type", JStr "id"); ("id", JStr userId)])])))
         | GetServerInfo serverId | IsServerFlagged serverId =>
             makeRequest net ("/server/" ++ serverId) RequestOptions.empty
         end w).
Proof.
  destruct call; cbn [invoke];
    unfold isServerFlagged, isUserFlagged, checkServerById, checkServerByName,
      checkServers, checkUserById, getServerInfo;
    try apply tryCatch_world; try reflexivity.
  - unfold bind, ret.
    rewrite <- (tryCatch_world _ (JObj [("error", JStr "Server not found")])).
    destruct (tryCatch _ _ w) as [[response | e] w']; reflexivity.
  - unfold bind, ret.
    rewrite <- (tryCatch_world _ (JObj [("error", JStr "User not found")])).
    destruct (tryCatch _ _ w) as [[response | e] w']; reflexivity.
Qed.

(** X10. With a stored timeout that [AbortSignal.timeout] accepts and a
    retry budget of 0 or more, a call of a public method sends between 1 and
    [retries + 1] requests, all equal, with one sleep between two
    consecutive ones.  The request goes to the base URL followed by the path
    of the method, by POST with a body or, for [getServerInfo] and
    [isServerFlagged], by GET without one; its headers are exactly the
    configured API key, the JSON content type and the user agent, and its
    timeout is the configured one. *)
Theorem invoke_effects net call w :
  let config := this_config w in
  let w' := snd (invoke net call w) in
  signalRange (Config.timeout config) ->
  0 <= Config.retries config ->
  exists (req : Request.t) (delays : list number),
    Z.of_nat (List.length delays) <= Config.retries config /\
    fetches w' = (fetches w + List.length delays + 1)%nat /\
    log w' = (log w ++ flat_map (fun d => [Fetch req; Delay d]) delays
                    ++ [Fetch req])%list /\
    Request.url req =
      Config.baseUrl config ++
      match call with
      | CheckServerById _ | CheckServerByName _ => "/server"
      | CheckServers _ => "/servers"
      | CheckUserById _ | IsUserFlagged _ => "/user"
      | GetServerInfo serverId | IsServerFlagged serverId => "/server/" ++ serverId
      end /\
    match call with
    | GetServerInfo _ | IsServerFlagged _ =>
        Request.method req = "GET" /\ Request.body req = None
    | _ => Request.method req = "POST" /\ Request.body req <> None
    end /\
    Request.headers req =
      [("x-api-key", Config.apiKey config);
       ("Content-Type", "application/json");
       ("User-Agent", "WardenAPI-JS/1.0.0")] /\
    Request.signal req = Config.timeout config.
Proof.
  intros config w' Hrange Hbudget. subst w'. rewrite invoke_world.
  destruct call;
    match goal with
    | |- context [makeRequest net ?endpoint ?options w] =>
        destruct (makeRequest_trace net endpoint options w Hrange Hbudget)
          as (k & Hk & _ & _ & Heq);
        rewrite Heq; cbn [snd fetches log]; rewrite traceOf_delays;
        eexists; eexists; rewrite length_map, length_seq;
        split; [exact Hk |]; split; [lia |]; split; [reflexivity |];
        fold config; cbn;
        repeat split; discriminate
    end.
Qed.

Lemma invoke_effects_witness :
  exists (req : Request.t) (delays : list number),
    Z.of_nat (List.length delays) <= 3 /\
    fetches (snd (invoke (Sample.firstThen Sample.tooMany Sample.found)
                    (IsServerFlagged "1") (newWorld Sample.config)))
      = (0 + List.length delays + 1)%nat /\
    log (snd (invoke (Sample.firstThen Sample.tooMany Sample.found)
                (IsServerFlagged "1") (newWorld Sample.config)))
      = ([] ++ flat_map (fun d => [Fetch req; Delay d]) delays ++ [Fetch req])%list /\
    Request.url req = "https://api.iitranq.co.uk/api/v1" ++ "/server/" ++ "1" /\
    (Request.method req = "GET" /\ Request.body req = None) /\
    Request.headers req =
      [("x-api-key", "wd_test");
       ("Content-Type", "application/json");
       ("User-Agent", "WardenAPI-JS/1.0.0")] /\
    Request.signal req = 10000.
Proof.
  apply (invoke_effects (Sample.firstThen Sample.tooMany Sample.found)
           (IsServerFlagged "1") (newWorld Sample.config)).
  - in_range.
  - cbn. lia.
Defined.

(* ===================================================================== *)
(** ** The flagged checks on the first response *)
(* ===================================================================== *)

Lemma makeRequest_first net endpoint options w :
  let req := requestOptions (this_config w) endpoint options in
  signalRange (signalDelay (this_config w) options) ->
  0 <= Config.retries (this_config w) ->
  makeRequest net endpoint options w =
    attempts net req (0 :: indicesAfter 0 (Config.retries (this_config w))) None w.
Proof.
  intros req Hrange Hbudget.
  destruct (makeRequest_at net endpoint options w 0 None w) as (_ & _ & Heq);
    [assumption | lia | reflexivity | exact Heq].
Qed.

Lemma makeRequest_first_failed net endpoint options w r message :
  let req := requestOptions (this_config w) endpoint options in
  signalRange (signalDelay (this_config w) options) ->
  0 <= Config.retries (this_config w) ->
  net req (fetches w) = Resolved r ->
  Response.ok r = false ->
  Response.status r <> 429 ->
  toString (errorMessage r) = Some message ->
  makeRequest net endpoint options w =
    (Throw (WardenErr
       {| WardenAPIError.message := message;
          WardenAPIError.statusCode := Some (Response.status r);
          WardenAPIError.responseData := safeBody r;
          WardenAPIError.rateLimit := extractRateLimit r |}),
     fetched req w).
Proof.
  intros req Hrange Hbudget Hnet Hok Hstatus Hmessage.
  rewrite makeRequest_first by assumption. fold req. rewrite attempts_cons.
  rewrite (attemptBody_failed net req 0 None w r Hnet Hok).
  - unfold WardenAPIError.new. rewrite Hmessage. reflexivity.
  - apply Z.eqb_neq in Hstatus. rewrite Hstatus. reflexivity.
Qed.

Lemma makeRequest_first_success net endpoint options w r data :
  let req := requestOptions (this_config w) endpoint options in
  signalRange (signalDelay (this_config w) options) ->
  0 <= Config.retries (this_config w) ->
  net req (fetches w) = Resolved r ->
  Response.ok r = true ->
  Response.json r = inr data ->
  makeRequest net endpoint options w =
    (Normal (JObj (assign "rateLimit" (RateLimitInfo.optValue (extractRateLimit r))
                     (ownProps data))),
     fetched req w).
Proof.
  intros req Hrange Hbudget Hnet Hok Hjson.
  rewrite makeRequest_first by assumption. fold req. rewrite attempts_cons.
  now rewrite (attemptBody_success net req 0 None w r data Hnet Hok Hjson).
Qed.

(** X11. When the first response to [isServerFlagged] or [isUserFlagged] is
    not ok and not a 429, and its error message converts to the string
    [message], no second request is made; the check returns [false] when the
    status is 404, and for every other status it throws the
    [WardenAPIError] of that response instead of answering.  The statement
    is for a stored timeout that [AbortSignal.timeout] accepts and a message
    whose numbers are those of the model. *)
Theorem isFlagged_on_error_response net id w r message :
  let config := this_config w in
  let serverReq := requestOptions config ("/server/" ++ id) RequestOptions.empty in
  let userReq :=
    requestOptions config "/user"
      (POST (JSON.stringify
               (JObj [("data", JObj [("type", JStr "id"); ("id", JStr id)])]))) in
  let outcome : Completion bool :=
    if Response.status r =? 404 then Normal false
    else Throw (WardenErr
           {| WardenAPIError.message := message;
              WardenAPIError.statusCode := Some (Response.status r);
              WardenAPIError.responseData := safeBody r;
              WardenAPIError.rateLimit := extractRateLimit r |}) in
  signalRange (Config.timeout config) ->
  0 <= Config.retries config ->
  Response.ok r = false ->
  Response.status r <> 429 ->
  toString (errorMessage r) = Some message ->
  safe (errorMessage r) = true ->
  (net serverReq (fetches w) = Resolved r ->
   isServerFlagged net id w = (outcome, fetched serverReq w)) /\
  (net userReq (fetches w) = Resolved r ->
   isUserFlagged net id w = (outcome, fetched userReq w)).
Proof.
  intros config serverReq userReq outcome Hrange Hbudget Hok Hstatus Hmessage _.
  split; intros Hnet.
  - unfold isServerFlagged, getServerInfo, bind, tryCatch.
    match goal with
    | |- context [makeRequest net ?endpoint ?options w] =>
        rewrite (makeRequest_first_failed net endpoint options w r message
                   Hrange Hbudget Hnet Hok Hstatus Hmessage)
    end.
    subst outcome. cbn [isNotFound WardenAPIError.statusCode].
    destruct (Response.status r =? 404); reflexivity.
  - unfold isUserFlagged, checkUserById, bind, tryCatch.
    match goal with
    | |- context [makeRequest net ?endpoint ?options w] =>
        rewrite (makeRequest_first_failed net endpoint options w r message
                   Hrange Hbudget Hnet Hok Hstatus Hmessage)
    end.
    subst outcome. cbn [isNotFound WardenAPIError.statusCode].
    destruct (Response.status r =? 404); reflexivity.
Qed.

Lemma isFlagged_on_error_response_witness :
  isServerFlagged (Sample.always Sample.notFound) "1" (newWorld Sample.config)
    = (Normal false, mkWorld Sample.config 1 [Fetch Sample.req])
  /\
  isServerFlagged (Sample.always Sample.failed) "1" (newWorld Sample.config)
    = (Throw (WardenErr
         {| WardenAPIError.message := "Database unavailable";
            WardenAPIError.statusCode := Some 500;
            WardenAPIError.responseData :=
              JObj [("error", JStr "Database unavailable")];
            WardenAPIError.rateLimit := None |}),
       mkWorld Sample.config 1 [Fetch Sample.req]).
Proof.
  split.
  - apply (isFlagged_on_error_response (Sample.always Sample.notFound) "1"
             (newWorld Sample.config) Sample.notFound "No such server");
      [in_range | cbn; lia | reflexivity | discriminate | reflexivity
       | reflexivity | reflexivity].
  - apply (isFlagged_on_error_response (Sample.always Sample.failed) "1"
             (newWorld Sample.config) Sample.failed "Database unavailable");
      [in_range | cbn; lia | reflexivity | discriminate | reflexivity
       | reflexivity | reflexivity].
Defined.

(** X12. When the first response to [isServerFlagged] or [isUserFlagged] is
    ok with a body that decodes to [data], the check is decided by the top
    level of [data] alone: it is [true] exactly when the own property [error]
    of [data] is falsy and its own property [id] is truthy.  A record nested
    under another key, or set by the rate-limit headers, plays no part.  The
    statement is for a stored timeout that [AbortSignal.timeout] accepts. *)
Theorem isFlagged_reads_top_level net id w r data :
  let config := this_config w in
  let serverReq := requestOptions config ("/server/" ++ id) RequestOptions.empty in
  let userReq :=
    requestOptions config "/user"
      (POST (JSON.stringify
               (JObj [("data", JObj [("type", JStr "id"); ("id", JStr id)])]))) in
  let flagged :=
    negb (truthy (lookup "error" (ownProps data)))
    && truthy (lookup "id" (ownProps data)) in
  signalRange (Config.timeout config) ->
  0 <= Config.retries config ->
  Response.ok r = true ->
  Response.json r = inr data ->
  (net serverReq (fetches w) = Resolved r ->
   isServerFlagged net id w = (Normal flagged, fetched serverReq w)) /\
  (net userReq (fetches w) = Resolved r ->
   isUserFlagged net id w = (Normal flagged, fetched userReq w)).
Proof.
  intros config serverReq userReq flagged Hrange Hbudget Hok Hjson.
  assert (Hread : forall k, k <> "rateLimit" ->
            get (JObj (assign "rateLimit"
                         (RateLimitInfo.optValue (extractRateLimit r))
                         (ownProps data))) k
            = lookup k (ownProps data)).
  { intros k Hk. unfold get. cbn [ownProps]. now apply lookup_assign_other. }
  split; intros Hnet.
  - unfold isServerFlagged, getServerInfo, bind, tryCatch.
    match goal with
    | |- context [makeRequest net ?endpoint ?options w] =>
        rewrite (makeRequest_first_success net endpoint options w r data
                   Hrange Hbudget Hnet Hok Hjson)
    end.
    unfold ret. rewrite optGet_get, !Hread by discriminate. reflexivity.
  - unfold isUserFlagged, checkUserById, bind, tryCatch.
    match goal with
    | |- context [makeRequest net ?endpoint ?options w] =>
        rewrite (makeRequest_first_success net endpoint options w r data
                   Hrange Hbudget Hnet Hok Hjson)
    end.
    unfold ret. rewrite optGet_get, !Hread by discriminate. reflexivity.
Qed.

Lemma isFlagged_reads_top_level_witness :
  isServerFlagged
    (Sample.always
       (Response.make 200 "OK" []
          (inr (JObj [("data", JObj [("id", JStr "1"); ("name", JStr "X")])]))))
    "1" (newWorld Sample.config)
  = (Normal false, mkWorld Sample.config 1 [Fetch Sample.req]).
Proof.
  apply (isFlagged_reads_top_level
           (Sample.always
              (Response.make 200 "OK" []
                 (inr (JObj [("data", JObj [("id", JStr "1"); ("name", JStr "X")])]))))
           "1" (newWorld Sample.config)
           (Response.make 200 "OK" []
              (inr (JObj [("data", JObj [("id", JStr "1"); ("name", JStr "X")])])))
           (JObj [("data", JObj [("id", JStr "1"); ("name", JStr "X")])]));
    [in_range | cbn; lia | reflexivity | reflexivity | reflexivity].
Defined.

(* ===================================================================== *)
(** ** The stored configuration *)
(* ===================================================================== *)

(** X13. Every configuration that the constructor stores has a key that
    starts with [wd_], a base URL that is not empty and a timeout and a retry
    count that are not 0; it is a fixed point of the constructor: passing its
    four fields back gives the same configuration. *)
Theorem constructor_fixed_point config c :
  constructor config = Normal c ->
  String.prefix "wd_" (Config.apiKey c) = true /\
  Config.baseUrl c <> "" /\
  Config.timeout c <> 0 /\
  Config.retries c <> 0 /\
  constructor
    (WardenConfig.make (Some (Config.apiKey c)) (Some (Config.baseUrl c))
       (Some (Int (Config.timeout c))) (Some (Int (Config.retries c))))
    = Normal c.
Proof.
  unfold constructor at 1.
  destruct (WardenConfig.apiKey config) as [key |]; [| discriminate].
  cbn [truthy]. destruct (key =? "")%string eqn:Hkey; [discriminate |].
  destruct (String.prefix "wd_" key) eqn:Hprefix; [| discriminate].
  cbn [negb]. intros [= <-]. cbn [Config.apiKey Config.baseUrl Config.timeout Config.retries].
  assert (Hurl : or_str (WardenConfig.baseUrl config)
                   "https://api.iitranq.co.uk/api/v1" <> "").
  { unfold or_str. destruct (WardenConfig.baseUrl config) as [url |]; [| discriminate].
    destruct (url =? "")%string eqn:E; [discriminate | now apply String.eqb_neq]. }
  assert (Hnum : forall o d, d <> 0 -> or_num o d <> 0).
  { intros [[| z] |] d Hd; cbn; try assumption.
    destruct (z =? 0) eqn:E; [assumption | now apply Z.eqb_neq]. }
  assert (Htimeout := Hnum (WardenConfig.timeout config) 10000 ltac:(discriminate)).
  assert (Hretries := Hnum (WardenConfig.retries config) 3 ltac:(discriminate)).
  split; [exact Hprefix |]. split; [exact Hurl |].
  split; [exact Htimeout |]. split; [exact Hretries |].
  unfold constructor. cbn [WardenConfig.apiKey WardenConfig.baseUrl
                           WardenConfig.timeout WardenConfig.retries truthy].
  rewrite Hkey, Hprefix. cbn [negb or_str or_num].
  apply String.eqb_neq in Hurl. apply Z.eqb_neq in Htimeout, Hretries.
  rewrite Hurl, Htimeout, Hretries. reflexivity.
Qed.

Lemma constructor_fixed_point_witness :
  String.prefix "wd_" "wd_test" = true /\
  "https://api.iitranq.co.uk/api/v1" <> "" /\
  10000 <> 0 /\
  3 <> 0 /\
  constructor
    (WardenConfig.make (Some "wd_test") (Some "https://api.iitranq.co.uk/api/v1")
       (Some (Int 10000)) (Some (Int 3)))
    = Normal Sample.config.
Proof.
  apply (constructor_fixed_point
           (WardenConfig.make (Some "wd_test") None None None) Sample.config).
  reflexivity.
Defined.

(* ===================================================================== *)
(** ** Not found, at the level of the response *)
(* ===================================================================== *)

Lemma ok_404 r : Response.status r = 404 -> Response.ok r = false.
Proof. intros H. unfold Response.ok. rewrite H. reflexivity. Qed.

(** X14. When the first response to [checkServerById], [checkServerByName],
    [checkUserById] or [getServerInfo] has status 404 and its error message
    converts to a string, the method returns its not-found object after that
    single request, and the rate-limit info of the response is dropped:
    [rateLimit] reads [undefined] on the result whatever the headers were.
    [checkServers] throws the [WardenAPIError] instead, which carries the
    rate-limit info.  The statement is for a stored timeout that
    [AbortSignal.timeout] accepts and a message whose numbers are those of
    the model. *)
Theorem lookup_404_response net w r message id name servers :
  let config := this_config w in
  let byId :=
    POST (JSON.stringify
            (JObj [("data", JObj [("type", JStr "id"); ("id", JStr id)])])) in
  let byName :=
    POST (JSON.stringify
            (JObj [("data", JObj [("type", JStr "name"); ("name", JStr name)])])) in
  let batch :=
    POST (JSON.stringify (JObj [("data", JObj [("servers", JArr servers)])])) in
  let answered (endpoint : string) (options : RequestOptions.t) :=
    net (requestOptions config endpoint options) (fetches w) = Resolved r in
  let after (endpoint : string) (options : RequestOptions.t) :=
    fetched (requestOptions config endpoint options) w in
  signalRange (Config.timeout config) ->
  0 <= Config.retries config ->
  Response.status r = 404 ->
  toString (errorMessage r) = Some message ->
  safe (errorMessage r) = true ->
  (answered "/server" byId ->
   exists soft,
     checkServerById net id w = (Normal soft, after "/server" byId) /\
     get soft "error" = JStr "Server not found" /\
     get soft "rateLimit" = JUndefined) /\
  (answered "/server" byName ->
   exists soft,
     checkServerByName net name w = (Normal soft, after "/server" byName) /\
     get soft "error" = JStr "Server not found" /\
     get soft "rateLimit" = JUndefined) /\
  (answered "/user" byId ->
   exists soft,
     checkUserById net id w = (Normal soft, after "/user" byId) /\
     get soft "error" = JStr "User not found" /\
     get soft "rateLimit" = JUndefined) /\
  (answered ("/server/" ++ id) RequestOptions.empty ->
   exists soft,
     getServerInfo net id w
       = (Normal soft, after ("/server/" ++ id) RequestOptions.empty) /\
     get soft "error" = JStr "Server not found" /\
     get soft "rateLimit" = JUndefined) /\
  (answered "/servers" batch ->
   exists e,
     checkServers net servers w
       = (Throw (WardenErr e), after "/servers" batch) /\
     WardenAPIError.statusCode e = Some 404 /\
     WardenAPIError.message e = message /\
     WardenAPIError.rateLimit e = extractRateLimit r).
Proof.
  intros config byId byName batch answered after Hrange Hbudget Hstatus Hmessage _.
  subst answered after. cbv beta.
  assert (Hok := ok_404 r Hstatus).
  assert (Hne : Response.status r <> 429) by (rewrite Hstatus; discriminate).
  assert (Hnf : forall m d rl,
            isNotFound (WardenErr (WardenAPIError.make m (Some (Response.status r)) d rl))
            = true).
  { intros. cbn. rewrite Hstatus. reflexivity. }
  unfold checkServerById, checkServerByName, checkUserById, getServerInfo,
    checkServers, tryCatch.
  fold byId byName batch.
  split; [| split; [| split; [| split]]]; intros Hnet;
    match goal with
    | |- context [makeRequest net ?endpoint ?options w] =>
        rewrite (makeRequest_first_failed net endpoint options w r message
                   Hrange Hbudget Hnet Hok Hne Hmessage)
    end;
    rewrite ?Hnf; eexists; (split; [reflexivity |]).
  1-4: split; reflexivity.
  split; [cbn; now rewrite Hstatus | split; reflexivity].
Qed.

Lemma lookup_404_response_witness :
  exists soft,
    getServerInfo
      (Sample.always (Response.make 404 "Not Found" Sample.rateLimitHeaders (inr JNull)))
      "1" (newWorld Sample.config)
    = (Normal soft, mkWorld Sample.config 1 [Fetch Sample.req]) /\
    get soft "error" = JStr "Server not found" /\
    get soft "rateLimit" = JUndefined.
Proof.
  destruct (lookup_404_response
              (Sample.always
                 (Response.make 404 "Not Found" Sample.rateLimitHeaders (inr JNull)))
              (newWorld Sample.config)
              (Response.make 404 "Not Found" Sample.rateLimitHeaders (inr JNull))
              "HTTP 404: Not Found" "1" "" [])
    as (_ & _ & _ & H & _);
    [in_range | cbn; lia | reflexivity | reflexivity | reflexivity |].
  apply H. reflexivity.
Defined.

(* ===================================================================== *)
(** ** The time spent in backoff *)
(* ===================================================================== *)

Lemma sleepMs_app l1 l2 : sleepMs (l1 ++ l2) = sleepMs l1 + sleepMs l2.
Proof.
  induction l1 as [| [req | [| ms]] l1 IH]; cbn [app sleepMs]; lia.
Qed.

Lemma sleepMs_backoff req n :
  sleepMs (backoffLog req n) = (2 ^ Z.of_nat n - 1) * 1000.
Proof.
  unfold backoffLog. rewrite sleepMs_app. cbn [sleepMs]. rewrite Z.add_0_r.
  induction n as [| n IH]; [reflexivity |].
  rewrite seq_S, flat_map_app, sleepMs_app, IH. cbn [flat_map app sleepMs Nat.add].
  rewrite Nat2Z.inj_succ, Z.pow_succ_r by lia. lia.
Qed.

(** X15. When every attempt is rejected by the transport, the time that
    [makeRequest] spends sleeping before it gives up is
    [(2^retries - 1) * 1000] ms in all: 7 seconds with the default of 3
    retries.  The statement is for a call whose timeout
    [AbortSignal.timeout] accepts. *)
Theorem makeRequest_backoff_total net endpoint options w (e : nat -> JSError.t) :
  let config := this_config w in
  let req := requestOptions config endpoint options in
  let n := Z.to_nat (Config.retries config) in
  signalRange (signalDelay config options) ->
  0 <= Config.retries config ->
  (forall i, (i <= n)%nat -> net req (fetches w + i)%nat = Rejected (e i)) ->
  sleepMs (log (snd (makeRequest net endpoint options w)))
    = sleepMs (log w) + (2 ^ Config.retries config - 1) * 1000.
Proof.
  intros config req n Hrange Hbudget Hnet.
  rewrite makeRequest_in_range by assumption.
  fold config req. unfold attemptIndices.
  replace (Z.to_nat (Config.retries config + 1)) with (S n) by lia.
  rewrite (attempts_all_rejected net req n 0%nat None w e);
    [| unfold n, config in *; lia | assumption].
  cbn [snd log]. change (flat_map _ (seq 0 n) ++ [Fetch req])%list
    with (backoffLog req n).
  rewrite sleepMs_app, sleepMs_backoff. unfold n. rewrite Z2Nat.id by assumption.
  reflexivity.
Qed.

Lemma makeRequest_backoff_total_witness :
  sleepMs (log (snd (makeRequest Sample.down "/server/1" RequestOptions.empty
                       (newWorld Sample.config))))
    = 0 + (2 ^ 3 - 1) * 1000.
Proof.
  apply (makeRequest_backoff_total Sample.down "/server/1" RequestOptions.empty
           (newWorld Sample.config) (fun _ => Sample.fetchFailed)).
  - in_range.
  - cbn. lia.
  - reflexivity.
Defined.
